(** * ekspeek: the cluster health-check aggregation engine

    A shallow embedding of the health checks of package [k8s]
    ([CheckClusterHealth] and the eight checks it runs,
    [GetClusterResources], [ValidatePodWebIdentityToken], [TestPodDNS],
    [GetEFSCSIStatus], [AnalyzeUnschedulablePods]), of the summary and
    the status printers of package [cmd] ([printHealthSummary],
    [printNetworkingStatus], [printAuthStatus]) and of two helpers of
    package [aws] ([extractRoleNameFromARN], [ValidateNodeGroupsConfig]),
    followed by the properties of the specification stated over it and by
    further properties read off the code.

    Conventions.
    - Go strings are [string]; the string-typed enumerations of the
      Kubernetes API ([PodPhase], [ConditionStatus], condition types,
      [ServiceType]) are strings compared with [=], as in the source.
    - A Go slice is a [list]; [append(s, x)] is [s ++ [x]]; the nil slice
      and the empty slice are both [[]] ([len] and [range] do not tell
      them apart).
    - [map[string][]string] is [gmap string (list string)]; reading an
      absent key gives the nil slice.
    - [int64], and [int] on the 64-bit platforms the tool is built for, is
      [Z] with the wrap-around of [+=] and [++] written out ([add64]);
      [float64] is the primitive binary64 [float].
    - A Go function returning [(T, error)] returns a pair [T * option error]
      ([None] is the nil error); a [*T] result that may be nil is an
      [option T].
    - The API server is a state of an arbitrary type [W]; every request is
      a function [W -> answer * W], and the code is sequenced in the state
      monad [M W]. *)

From Stdlib Require Import ZArith.
From Stdlib Require Import Floats.PrimFloat Numbers.Cyclic.Int63.Uint63.
From stdpp Require Import base option list gmap strings.

Local Open Scope Z_scope.

(** ** Machine numbers *)

Definition wrap64 (z : Z) : Z := (z + 2 ^ 63) mod 2 ^ 64 - 2 ^ 63.

(** [a += b] on [int64]. *)
Definition add64 (a b : Z) : Z := wrap64 (a + b).

(** The conversion [float64(x)] of an [int64]: the nearest binary64. *)
Definition float64 (x : Z) : float :=
  if x =? - 2 ^ 63 then
    PrimFloat.opp (PrimFloat.mul (PrimFloat.of_uint63 (Uint63.of_Z (2 ^ 62))) 2%float)
  else if x <? 0 then PrimFloat.opp (PrimFloat.of_uint63 (Uint63.of_Z (- x)))
  else PrimFloat.of_uint63 (Uint63.of_Z x).

(** [len] of a slice, as a Go [int]. *)
Definition len {A} (s : list A) : Z := Z.of_nat (length s).

(** ** The state monad of API requests *)

Definition M (W A : Type) : Type := W → A * W.

Definition ret {W A} (a : A) : M W A := λ w, (a, w).

Definition bind {W A B} (f : A → M W B) (m : M W A) : M W B :=
  λ w, let '(a, w') := m w in f a w'.

#[global] Instance M_ret {W} : MRet (M W) := @ret W.
#[global] Instance M_bind {W} : MBind (M W) := @bind W.

(** [for _, x := range l { s = body(s, x) }] with requests in the body. *)
Fixpoint forM {W A S} (body : S → A → M W S) (l : list A) (s : S) : M W S :=
  match l with
  | [] => mret s
  | x :: l' => s' ← body s x; forM body l' s'
  end.

(** ** Errors *)

(** An error is a status error of the API machinery, with its reason, or
    an error built by [fmt.Errorf], which wraps another one when its format
    ends in [%w]. *)
Inductive error : Type :=
  | StatusError (reason message : string)
  | New (text : string)
  | Wrap (text : string) (cause : error).

Definition StatusReasonNotFound : string := "NotFound".
Definition StatusReasonForbidden : string := "Forbidden".

(** [errors.IsNotFound]: the reason of the status error at the end of the
    chain of wrapped errors. *)
Fixpoint IsNotFound (err : error) : bool :=
  match err with
  | StatusError reason _ => bool_decide (reason = StatusReasonNotFound)
  | New _ => false
  | Wrap _ cause => IsNotFound cause
  end.

(** [strings.Contains]. *)
Definition Contains (s substr : string) : bool :=
  bool_decide (is_Some (String.index 0 substr s)).

(** ** The Kubernetes API objects the checks read *)

Module corev1.

(** [resource.Quantity], at the precision of one thousandth. *)
Record Quantity := { milli : Z }.

Definition MilliValue (q : Quantity) : Z := milli q.

(** [Value] rounds away from zero to a whole number. *)
Definition Value (q : Quantity) : Z :=
  if milli q mod 1000 =? 0 then milli q `quot` 1000
  else milli q `quot` 1000 + Z.sgn (milli q).

Definition ResourceCPU : string := "cpu".
Definition ResourceMemory : string := "memory".

(** [ResourceList.Cpu()] and [.Memory()]: the zero quantity when the
    entry is absent. *)
Definition Cpu (rl : gmap string Quantity) : Quantity :=
  default {| milli := 0 |} (rl !! ResourceCPU).
Definition Memory (rl : gmap string Quantity) : Quantity :=
  default {| milli := 0 |} (rl !! ResourceMemory).

Definition ConditionTrue : string := "True".
Definition ConditionFalse : string := "False".
Definition ConditionUnknown : string := "Unknown".

Definition NodeReady : string := "Ready".
Definition PodScheduled : string := "PodScheduled".

Definition PodPending : string := "Pending".
Definition PodRunning : string := "Running".
Definition PodSucceeded : string := "Succeeded".
Definition PodFailed : string := "Failed".

Definition ServiceTypeLoadBalancer : string := "LoadBalancer".
Definition RestartPolicyNever : string := "Never".

Record NodeCondition := {
  nc_Type : string; nc_Status : string; nc_Message : string }.

Record PodCondition := {
  pc_Type : string; pc_Status : string; pc_Message : string }.

Record Node := {
  node_Name : string;
  node_KubeletVersion : string;            (* Status.NodeInfo.KubeletVersion *)
  node_Conditions : list NodeCondition;    (* Status.Conditions *)
  node_Capacity : gmap string Quantity }.  (* Status.Capacity *)

Record EnvVar := { env_Name : string; env_Value : string }.

Record Container := {
  ctr_Name : string;
  ctr_Image : string;
  ctr_Command : list string;
  ctr_Env : list EnvVar;
  ctr_Requests : gmap string Quantity }.   (* Resources.Requests *)

Record ServiceAccountTokenProjection := {
  satp_Audience : string; satp_Path : string }.

Record VolumeProjection := {
  ServiceAccountToken : option ServiceAccountTokenProjection }.

Record ProjectedVolumeSource := { Sources : list VolumeProjection }.

Record Volume := {
  vol_Name : string;
  Projected : option ProjectedVolumeSource }.

Record PodSpec := {
  Volumes : list Volume;
  Containers : list Container;
  NodeName : string;
  ServiceAccountName : string;
  RestartPolicy : string }.

Record Pod := {
  pod_Name : string;
  pod_GenerateName : string;
  pod_Namespace : string;
  pod_Spec : PodSpec;
  pod_Phase : string;                      (* Status.Phase *)
  pod_Message : string;                    (* Status.Message *)
  pod_Conditions : list PodCondition }.    (* Status.Conditions *)

(** An object of [Deployment] or [ServiceAccount]: its metadata.  A nil
    annotation map is [None]. *)
Record ObjectMeta := {
  meta_Name : string;
  meta_Namespace : string;
  meta_Annotations : option (gmap string string) }.

Record Service := {
  svc_Name : string;
  svc_Namespace : string;
  svc_Type : string;                       (* Spec.Type *)
  svc_Ingress : list string }.             (* Status.LoadBalancer.Ingress *)

Record Ingress := {
  ing_Name : string;
  ing_Namespace : string;
  ing_Ingress : list string }.             (* Status.LoadBalancer.Ingress *)

Definition emptyPodSpec : PodSpec :=
  {| Volumes := []; Containers := []; NodeName := "";
     ServiceAccountName := ""; RestartPolicy := "" |}.

End corev1.

(** Indexing a Go map that may be nil. *)
Definition index {V} (m : option (gmap string V)) (key : string) : option V :=
  m ≫= (.!! key).

Module metav1.
Record ListOptions := { LabelSelector : string; FieldSelector : string }.
Definition noOptions : ListOptions :=
  {| LabelSelector := ""; FieldSelector := "" |}.
End metav1.

(** ** The client interface *)

(** What [io.Copy] reads from the log stream of a pod: the bytes read, and
    the read error if the stream broke. *)
Record ReadCloser := { rc_data : string; rc_err : option error }.

(** [kubernetes.Interface], restricted to the requests the package makes.
    A list request answers with the items and an error, as the typed
    clients do (the list object is never nil).  A watch answers with the
    events its channel delivers before it is closed, each given by the pod
    it carries: a watch that delivers an object that is not a pod, on
    which the type assertion of [TestPodDNS] panics, is not represented.
    A request is an operation on the state [W]; the [context.Context]
    that the source passes along with it is not represented. *)
Record Interface (W : Type) := {
  Nodes_List : metav1.ListOptions → M W (list corev1.Node * option error);
  Deployments_List : string → metav1.ListOptions → M W (list corev1.ObjectMeta * option error);
  Pods_List : string → metav1.ListOptions → M W (list corev1.Pod * option error);
  Pods_Get : string → string → M W (corev1.Pod * option error);
  Pods_GetLogs : string → string → string → M W (ReadCloser * option error);
  Pods_Create : string → corev1.Pod → M W (corev1.Pod * option error);
  Pods_Delete : string → string → M W (option error);
  Pods_Watch : string → string → M W (list corev1.Pod * option error);
  Services_List : string → metav1.ListOptions → M W (list corev1.Service * option error);
  Ingresses_List : string → metav1.ListOptions → M W (list corev1.Ingress * option error);
  ServiceAccounts_List : string → metav1.ListOptions → M W (list corev1.ObjectMeta * option error) }.

Arguments Nodes_List {W}.
Arguments Deployments_List {W}.
Arguments Pods_List {W}.
Arguments Pods_Get {W}.
Arguments Pods_GetLogs {W}.
Arguments Pods_Create {W}.
Arguments Pods_Delete {W}.
Arguments Pods_Watch {W}.
Arguments Services_List {W}.
Arguments Ingresses_List {W}.
Arguments ServiceAccounts_List {W}.

(** ** Package k8s: the status model *)

Module k8s.
Import corev1 metav1.

Record ResourceRequirements := { req_CPU : string; req_Memory : string }.

Record PodStatus := {
  Name : string;
  Namespace : string;
  Status : string;
  NodeName : string;
  Phase : string;
  Spec : corev1.PodSpec;
  Message : string;
  Requirements : ResourceRequirements }.

Record LoggingStatus := {
  FluentBitStatus : list PodStatus;
  CloudWatchStatus : list PodStatus;
  MetricsServerStatus : list PodStatus }.

Record NetworkingStatus := {
  CNIStatus : list PodStatus;
  CoreDNSStatus : list PodStatus;
  ExternalAccess : bool;
  DNSResolution : bool }.

Record IngressStatus := {
  is_Name : string;
  is_Namespace : string;
  is_Status : string;
  is_Problems : list string }.

Record LoadBalancerStatus := {
  PendingServices : list string;
  IngressStatuses : list IngressStatus }.   (* field IngressStatus *)

Record PodSchedulingIssue := {
  psi_Pod : string;
  psi_Namespace : string;
  psi_Reason : string }.

Record ResourceStats := {
  Capacity : Z;
  Allocated : Z;
  Utilization : float }.

Record ResourceIssue := {
  ri_NodeName : string;
  ri_CPU : ResourceStats;
  ri_Memory : ResourceStats }.

Record SchedulingStatus := {
  PendingPods : list PodSchedulingIssue;
  ResourceIssues : list ResourceIssue }.

Record AuthStatus := {
  IRSAIssues : list string;
  RBACIssues : list string;
  IAMAuthIssues : list string }.

Record NodeStatus := {
  NotReady : list string;
  ASGIssues : list string;
  BootstrapIssues : list string }.

Record ClusterHealthStatus := {
  NodeVersions : gmap string (list string);
  DeprecatedAPIs : list string;
  Logging : LoggingStatus;                  (* field LoggingStatus *)
  Networking : NetworkingStatus;            (* field NetworkingStatus *)
  LoadBalancer : LoadBalancerStatus;        (* field LoadBalancerStatus *)
  Scheduling : SchedulingStatus;            (* field SchedulingStatus *)
  Auth : AuthStatus;                        (* field AuthStatus *)
  Nodes : NodeStatus }.                     (* field NodeStatus *)

Record ClusterResources := {
  TotalCPU : Z;
  TotalMemory : Z;
  AllocatedCPU : Z;
  AllocatedMemory : Z;
  CPUPercentage : float;
  MemPercentage : float }.

(** Assignments to one field of a struct. *)
Definition set_NodeVersions (v : gmap string (list string)) (s : ClusterHealthStatus) :=
  {| NodeVersions := v; DeprecatedAPIs := DeprecatedAPIs s; Logging := Logging s;
     Networking := Networking s; LoadBalancer := LoadBalancer s;
     Scheduling := Scheduling s; Auth := Auth s; Nodes := Nodes s |}.
Definition set_DeprecatedAPIs (v : list string) (s : ClusterHealthStatus) :=
  {| NodeVersions := NodeVersions s; DeprecatedAPIs := v; Logging := Logging s;
     Networking := Networking s; LoadBalancer := LoadBalancer s;
     Scheduling := Scheduling s; Auth := Auth s; Nodes := Nodes s |}.
Definition set_Logging (v : LoggingStatus) (s : ClusterHealthStatus) :=
  {| NodeVersions := NodeVersions s; DeprecatedAPIs := DeprecatedAPIs s; Logging := v;
     Networking := Networking s; LoadBalancer := LoadBalancer s;
     Scheduling := Scheduling s; Auth := Auth s; Nodes := Nodes s |}.
Definition set_Networking (v : NetworkingStatus) (s : ClusterHealthStatus) :=
  {| NodeVersions := NodeVersions s; DeprecatedAPIs := DeprecatedAPIs s; Logging := Logging s;
     Networking := v; LoadBalancer := LoadBalancer s;
     Scheduling := Scheduling s; Auth := Auth s; Nodes := Nodes s |}.
Definition set_LoadBalancer (v : LoadBalancerStatus) (s : ClusterHealthStatus) :=
  {| NodeVersions := NodeVersions s; DeprecatedAPIs := DeprecatedAPIs s; Logging := Logging s;
     Networking := Networking s; LoadBalancer := v;
     Scheduling := Scheduling s; Auth := Auth s; Nodes := Nodes s |}.
Definition set_Scheduling (v : SchedulingStatus) (s : ClusterHealthStatus) :=
  {| NodeVersions := NodeVersions s; DeprecatedAPIs := DeprecatedAPIs s; Logging := Logging s;
     Networking := Networking s; LoadBalancer := LoadBalancer s;
     Scheduling := v; Auth := Auth s; Nodes := Nodes s |}.
Definition set_Auth (v : AuthStatus) (s : ClusterHealthStatus) :=
  {| NodeVersions := NodeVersions s; DeprecatedAPIs := DeprecatedAPIs s; Logging := Logging s;
     Networking := Networking s; LoadBalancer := LoadBalancer s;
     Scheduling := Scheduling s; Auth := v; Nodes := Nodes s |}.
Definition set_Nodes (v : NodeStatus) (s : ClusterHealthStatus) :=
  {| NodeVersions := NodeVersions s; DeprecatedAPIs := DeprecatedAPIs s; Logging := Logging s;
     Networking := Networking s; LoadBalancer := LoadBalancer s;
     Scheduling := Scheduling s; Auth := Auth s; Nodes := v |}.

Definition set_FluentBitStatus (v : list PodStatus) (s : LoggingStatus) :=
  {| FluentBitStatus := v; CloudWatchStatus := CloudWatchStatus s;
     MetricsServerStatus := MetricsServerStatus s |}.
Definition set_CloudWatchStatus (v : list PodStatus) (s : LoggingStatus) :=
  {| FluentBitStatus := FluentBitStatus s; CloudWatchStatus := v;
     MetricsServerStatus := MetricsServerStatus s |}.
Definition set_MetricsServerStatus (v : list PodStatus) (s : LoggingStatus) :=
  {| FluentBitStatus := FluentBitStatus s; CloudWatchStatus := CloudWatchStatus s;
     MetricsServerStatus := v |}.

Definition set_CNIStatus (v : list PodStatus) (s : NetworkingStatus) :=
  {| CNIStatus := v; CoreDNSStatus := CoreDNSStatus s;
     ExternalAccess := ExternalAccess s; DNSResolution := DNSResolution s |}.
Definition set_CoreDNSStatus (v : list PodStatus) (s : NetworkingStatus) :=
  {| CNIStatus := CNIStatus s; CoreDNSStatus := v;
     ExternalAccess := ExternalAccess s; DNSResolution := DNSResolution s |}.

Definition set_PendingServices (v : list string) (s : LoadBalancerStatus) :=
  {| PendingServices := v; IngressStatuses := IngressStatuses s |}.
Definition set_IngressStatuses (v : list IngressStatus) (s : LoadBalancerStatus) :=
  {| PendingServices := PendingServices s; IngressStatuses := v |}.

Definition set_PendingPods (v : list PodSchedulingIssue) (s : SchedulingStatus) :=
  {| PendingPods := v; ResourceIssues := ResourceIssues s |}.

Definition set_IRSAIssues (v : list string) (s : AuthStatus) :=
  {| IRSAIssues := v; RBACIssues := RBACIssues s; IAMAuthIssues := IAMAuthIssues s |}.

Definition set_NotReady (v : list string) (s : NodeStatus) :=
  {| NotReady := v; ASGIssues := ASGIssues s; BootstrapIssues := BootstrapIssues s |}.
Definition set_BootstrapIssues (v : list string) (s : NodeStatus) :=
  {| NotReady := NotReady s; ASGIssues := ASGIssues s; BootstrapIssues := v |}.

(** The zero values of the structs. *)
Definition zeroLogging : LoggingStatus :=
  {| FluentBitStatus := []; CloudWatchStatus := []; MetricsServerStatus := [] |}.
Definition zeroNetworking : NetworkingStatus :=
  {| CNIStatus := []; CoreDNSStatus := []; ExternalAccess := false; DNSResolution := false |}.
Definition zeroLoadBalancer : LoadBalancerStatus :=
  {| PendingServices := []; IngressStatuses := [] |}.
Definition zeroScheduling : SchedulingStatus :=
  {| PendingPods := []; ResourceIssues := [] |}.
Definition zeroAuth : AuthStatus :=
  {| IRSAIssues := []; RBACIssues := []; IAMAuthIssues := [] |}.
Definition zeroNodes : NodeStatus :=
  {| NotReady := []; ASGIssues := []; BootstrapIssues := [] |}.
Definition zeroResources : ClusterResources :=
  {| TotalCPU := 0; TotalMemory := 0; AllocatedCPU := 0; AllocatedMemory := 0;
     CPUPercentage := 0%float; MemPercentage := 0%float |}.

(** [&ClusterHealthStatus{NodeVersions: make(map[string][]string)}] *)
Definition newStatus : ClusterHealthStatus :=
  {| NodeVersions := ∅; DeprecatedAPIs := []; Logging := zeroLogging;
     Networking := zeroNetworking; LoadBalancer := zeroLoadBalancer;
     Scheduling := zeroScheduling; Auth := zeroAuth; Nodes := zeroNodes |}.

(** The literal [PodStatus{Name: pod.Name, Namespace: pod.Namespace,
    Status: string(pod.Status.Phase), Message: pod.Status.Message}]
    of the listing loops; the other fields keep their zero values. *)
Definition podStatus (pod : corev1.Pod) : PodStatus :=
  {| Name := pod_Name pod; Namespace := pod_Namespace pod;
     Status := pod_Phase pod; NodeName := ""; Phase := "";
     Spec := emptyPodSpec; Message := pod_Message pod;
     Requirements := {| req_CPU := ""; req_Memory := "" |} |}.

Record KubeClient (W : Type) := { Clientset : Interface W }.
Arguments Clientset {W}.

(** ** Package k8s: the checks *)

Section Checks.
Context {W : Type} (k : KubeClient W).

(** [GetPodLogs]: the stream is opened, copied into a buffer and
    closed. *)
Definition GetPodLogs (namespace podName containerName : string)
    : M W (string * option error) :=
  '(podLogs, err) ← Pods_GetLogs (Clientset k) namespace podName containerName;
  match err with
  | Some e => mret ("", Some (Wrap "failed to get pod logs: " e))
  | None =>
      match rc_err podLogs with
      | Some e => mret ("", Some (Wrap "failed to copy pod logs: " e))
      | None => mret (rc_data podLogs, None)
      end
  end.

Definition checkVersionMismatch (status : ClusterHealthStatus)
    : M W (ClusterHealthStatus * option error) :=
  '(nodes, err) ← Nodes_List (Clientset k) noOptions;
  match err with
  | Some e => mret (status, Some e)
  | None =>
      mret (foldl (λ status node,
              let version := node_KubeletVersion node in
              set_NodeVersions
                (<[version := default [] (NodeVersions status !! version) ++ [node_Name node]]>
                   (NodeVersions status)) status)
              status nodes, None)
  end.

Definition checkDeprecatedAPIs (status : ClusterHealthStatus)
    : M W (ClusterHealthStatus * option error) :=
  '(deployments, err) ← Deployments_List (Clientset k) "" noOptions;
  match err with
  | Some e => mret (status, Some e)
  | None =>
      mret (foldl (λ status deploy,
              match index (meta_Annotations deploy) "deprecated.kubernetes.io" with
              | Some _ =>
                  set_DeprecatedAPIs
                    (DeprecatedAPIs status ++
                       ["Deployment " +:+ meta_Namespace deploy +:+ "/" +:+
                          meta_Name deploy +:+ " uses deprecated APIs"]) status
              | None => status
              end) status deployments, None)
  end.

(** [err != nil && !errors.IsNotFound(err)] *)
Definition fatal (err : option error) : option error :=
  match err with
  | Some e => if IsNotFound e then None else Some e
  | None => None
  end.

Definition checkLoggingStatus (status : ClusterHealthStatus)
    : M W (ClusterHealthStatus * option error) :=
  '(fluentBitPods, err) ← Pods_List (Clientset k) ""
      {| LabelSelector := "app=fluent-bit"; FieldSelector := "" |};
  match fatal err with
  | Some e => mret (status, Some e)
  | None =>
  let status := foldl (λ status pod,
    set_Logging (set_FluentBitStatus
      (FluentBitStatus (Logging status) ++ [podStatus pod]) (Logging status)) status)
    status fluentBitPods in
  '(cwPods, err) ← Pods_List (Clientset k) ""
      {| LabelSelector := "app=cloudwatch-agent"; FieldSelector := "" |};
  match fatal err with
  | Some e => mret (status, Some e)
  | None =>
  let status := foldl (λ status pod,
    set_Logging (set_CloudWatchStatus
      (CloudWatchStatus (Logging status) ++ [podStatus pod]) (Logging status)) status)
    status cwPods in
  '(metricsPods, err) ← Pods_List (Clientset k) ""
      {| LabelSelector := "k8s-app=metrics-server"; FieldSelector := "" |};
  match fatal err with
  | Some e => mret (status, Some e)
  | None =>
  let status := foldl (λ status pod,
    set_Logging (set_MetricsServerStatus
      (MetricsServerStatus (Logging status) ++ [podStatus pod]) (Logging status)) status)
    status metricsPods in
  mret (status, None)
  end end end.

Definition checkNetworkingStatus (status : NetworkingStatus)
    : M W (NetworkingStatus * option error) :=
  '(cniPods, err) ← Pods_List (Clientset k) "kube-system"
      {| LabelSelector := "k8s-app=aws-node"; FieldSelector := "" |};
  match err with
  | Some e => mret (status, Some e)
  | None =>
  let status := foldl (λ status pod,
    set_CNIStatus (CNIStatus status ++ [podStatus pod]) status) status cniPods in
  '(coreDNSPods, err) ← Pods_List (Clientset k) "kube-system"
      {| LabelSelector := "k8s-app=kube-dns"; FieldSelector := "" |};
  match err with
  | Some e => mret (status, Some e)
  | None =>
  let status := foldl (λ status pod,
    set_CoreDNSStatus (CoreDNSStatus status ++ [podStatus pod]) status) status coreDNSPods in
  mret (status, None)
  end end.

Definition checkLoadBalancerStatus (status : LoadBalancerStatus)
    : M W (LoadBalancerStatus * option error) :=
  '(services, err) ← Services_List (Clientset k) "" noOptions;
  match err with
  | Some e => mret (status, Some e)
  | None =>
  let status := foldl (λ status svc,
    if bool_decide (svc_Type svc = ServiceTypeLoadBalancer) && (len (svc_Ingress svc) =? 0)
    then set_PendingServices
           (PendingServices status ++ [svc_Namespace svc +:+ "/" +:+ svc_Name svc]) status
    else status) status services in
  '(ingresses, err) ← Ingresses_List (Clientset k) "" noOptions;
  match err with
  | Some e => mret (status, Some e)
  | None =>
  let status := foldl (λ status ing,
    let ingressStatus :=
      {| is_Name := ing_Name ing; is_Namespace := ing_Namespace ing;
         is_Status := "Pending"; is_Problems := [] |} in
    let ingressStatus :=
      if 0 <? len (ing_Ingress ing)
      then {| is_Name := is_Name ingressStatus; is_Namespace := is_Namespace ingressStatus;
              is_Status := "Ready"; is_Problems := is_Problems ingressStatus |}
      else ingressStatus in
    set_IngressStatuses (IngressStatuses status ++ [ingressStatus]) status)
    status ingresses in
  mret (status, None)
  end end.

(** The inner loop of [checkSchedulingStatus]: the first condition of
    type [PodScheduled] with status [False] sets the reason and ends
    the loop. *)
Fixpoint scheduledLoop (conds : list PodCondition) (issue : PodSchedulingIssue)
    : PodSchedulingIssue :=
  match conds with
  | [] => issue
  | cond :: rest =>
      if bool_decide (pc_Type cond = PodScheduled) && bool_decide (pc_Status cond = ConditionFalse)
      then {| psi_Pod := psi_Pod issue; psi_Namespace := psi_Namespace issue;
              psi_Reason := pc_Message cond |}
      else scheduledLoop rest issue
  end.

Definition checkSchedulingStatus (status : SchedulingStatus)
    : M W (SchedulingStatus * option error) :=
  '(pods, err) ← Pods_List (Clientset k) ""
      {| LabelSelector := ""; FieldSelector := "status.phase=Pending" |};
  match err with
  | Some e => mret (status, Some e)
  | None =>
      mret (foldl (λ status pod,
              let issue := {| psi_Pod := pod_Name pod; psi_Namespace := pod_Namespace pod;
                              psi_Reason := "" |} in
              let issue := scheduledLoop (pod_Conditions pod) issue in
              set_PendingPods (PendingPods status ++ [issue]) status)
              status pods, None)
  end.

Definition checkAuthStatus (status : AuthStatus) : M W (AuthStatus * option error) :=
  '(sa, err) ← ServiceAccounts_List (Clientset k) "" noOptions;
  match err with
  | Some e => mret (status, Some e)
  | None =>
  status ← forM (λ status account,
    match meta_Annotations account with
    | None => mret status
    | Some annotations =>
    match annotations !! "eks.amazonaws.com/role-arn" with
    | None => mret status
    | Some role =>
        '(pods, err) ← Pods_List (Clientset k) (meta_Namespace account)
            {| LabelSelector := "";
               FieldSelector := "spec.serviceAccountName=" +:+ meta_Name account |};
        match err with
        | Some _ => mret status
        | None =>
            forM (λ status pod,
              if bool_decide (pod_Phase pod = PodRunning) then
                '(logs, err) ← GetPodLogs (pod_Namespace pod) (pod_Name pod) "";
                match err with
                | Some _ => mret status
                | None =>
                    if Contains logs "AccessDenied" || Contains logs "UnauthorizedOperation"
                    then mret (set_IRSAIssues
                           (IRSAIssues status ++
                              ["Pod " +:+ pod_Namespace pod +:+ "/" +:+ pod_Name pod +:+
                               " using SA " +:+ meta_Name account +:+ " with role " +:+
                               role +:+ " has AWS access issues"]) status)
                    else mret status
                end
              else mret status) pods status
        end
    end end) sa status;
  mret (status, None)
  end.

(** The first loop over the conditions of a node: the first condition
    of type [Ready] decides and ends the loop. *)
Fixpoint readyLoop (conds : list NodeCondition) (isReady : bool) : bool :=
  match conds with
  | [] => isReady
  | condition :: rest =>
      if bool_decide (nc_Type condition = NodeReady)
      then bool_decide (nc_Status condition = ConditionTrue)
      else readyLoop rest isReady
  end.

Definition checkNodeStatus (status : NodeStatus) : M W (NodeStatus * option error) :=
  '(nodes, err) ← Nodes_List (Clientset k) noOptions;
  match err with
  | Some e => mret (status, Some e)
  | None =>
      mret (foldl (λ status node,
              let isReady := readyLoop (node_Conditions node) false in
              if negb isReady then
                let status := set_NotReady (NotReady status ++ [node_Name node]) status in
                foldl (λ status condition,
                  if bool_decide (nc_Status condition = ConditionFalse)
                  then set_BootstrapIssues
                         (BootstrapIssues status ++
                            ["Node " +:+ node_Name node +:+ ": " +:+ nc_Type condition +:+
                             " - " +:+ nc_Message condition]) status
                  else status) status (node_Conditions node)
              else status) status nodes, None)
  end.

(** [CheckClusterHealth]: the eight checks in sequence on one status;
    the first error ends the run with a nil status. *)
Definition CheckClusterHealth : M W (option ClusterHealthStatus * option error) :=
  let status := newStatus in
  (* Check node versions and control plane compatibility *)
  '(status, err) ← checkVersionMismatch status;
  match err with Some e => mret (None, Some e) | None =>
  (* Check for deprecated API usage *)
  '(status, err) ← checkDeprecatedAPIs status;
  match err with Some e => mret (None, Some e) | None =>
  (* Check logging components *)
  '(status, err) ← checkLoggingStatus status;
  match err with Some e => mret (None, Some e) | None =>
  (* Check networking *)
  '(sub, err) ← checkNetworkingStatus (Networking status);
  let status := set_Networking sub status in
  match err with Some e => mret (None, Some e) | None =>
  (* Check load balancers and ingress *)
  '(sub, err) ← checkLoadBalancerStatus (LoadBalancer status);
  let status := set_LoadBalancer sub status in
  match err with Some e => mret (None, Some e) | None =>
  (* Check scheduling and resources *)
  '(sub, err) ← checkSchedulingStatus (Scheduling status);
  let status := set_Scheduling sub status in
  match err with Some e => mret (None, Some e) | None =>
  (* Check authentication and authorization *)
  '(sub, err) ← checkAuthStatus (Auth status);
  let status := set_Auth sub status in
  match err with Some e => mret (None, Some e) | None =>
  (* Check node health *)
  '(sub, err) ← checkNodeStatus (Nodes status);
  let status := set_Nodes sub status in
  match err with Some e => mret (None, Some e) | None =>
  mret (Some status, None)
  end end end end end end end end.

(** The loop of [GetClusterResources] over the nodes; an error of the
    pod listing of a node returns from the function. *)
Fixpoint nodesLoop (nodes : list Node) (resources : ClusterResources)
    : M W (ClusterResources * option error) :=
  match nodes with
  | [] => mret (resources, None)
  | node :: rest =>
      let cpu := MilliValue (Cpu (node_Capacity node)) in
      let mem := Value (Memory (node_Capacity node)) in
      let resources :=
        {| TotalCPU := add64 (TotalCPU resources) cpu;
           TotalMemory := add64 (TotalMemory resources) mem;
           AllocatedCPU := AllocatedCPU resources;
           AllocatedMemory := AllocatedMemory resources;
           CPUPercentage := CPUPercentage resources;
           MemPercentage := MemPercentage resources |} in
      '(pods, err) ← Pods_List (Clientset k) ""
          {| LabelSelector := "";
             FieldSelector := "spec.nodeName=" +:+ node_Name node |};
      match err with
      | Some e =>
          mret (resources,
                Some (Wrap ("failed to list pods for node " +:+ node_Name node +:+ ": ") e))
      | None =>
          nodesLoop rest
            (foldl (λ resources pod,
               foldl (λ resources container,
                 {| TotalCPU := TotalCPU resources;
                    TotalMemory := TotalMemory resources;
                    AllocatedCPU :=
                      add64 (AllocatedCPU resources)
                            (MilliValue (Cpu (ctr_Requests container)));
                    AllocatedMemory :=
                      add64 (AllocatedMemory resources)
                            (Value (Memory (ctr_Requests container)));
                    CPUPercentage := CPUPercentage resources;
                    MemPercentage := MemPercentage resources |})
                 resources (Containers (pod_Spec pod)))
               resources pods)
      end
  end.

Definition GetClusterResources : M W (option ClusterResources * option error) :=
  '(nodes, err) ← Nodes_List (Clientset k) noOptions;
  match err with
  | Some e => mret (None, Some (Wrap "failed to list nodes: " e))
  | None =>
      '(resources, err) ← nodesLoop nodes zeroResources;
      match err with
      | Some e => mret (None, Some e)
      | None =>
          let cpuPercentage :=
            if 0 <? TotalCPU resources
            then (float64 (AllocatedCPU resources) / float64 (TotalCPU resources)
                  * float64 100)%float
            else CPUPercentage resources in
          let memPercentage :=
            if 0 <? TotalMemory resources
            then (float64 (AllocatedMemory resources) / float64 (TotalMemory resources)
                  * float64 100)%float
            else MemPercentage resources in
          mret (Some {| TotalCPU := TotalCPU resources;
                        TotalMemory := TotalMemory resources;
                        AllocatedCPU := AllocatedCPU resources;
                        AllocatedMemory := AllocatedMemory resources;
                        CPUPercentage := cpuPercentage;
                        MemPercentage := memPercentage |}, None)
      end
  end.

(** The loop over the sources of a projected volume: the first source
    with a service-account token sets the flag and ends the loop. *)
Fixpoint sourcesLoop (sources : list VolumeProjection) (hasTokenVolume : bool) : bool :=
  match sources with
  | [] => hasTokenVolume
  | source :: rest =>
      match ServiceAccountToken source with
      | Some _ => true
      | None => sourcesLoop rest hasTokenVolume
      end
  end.

Definition ValidatePodWebIdentityToken (namespace podName : string) : M W (option error) :=
  '(pod, err) ← Pods_Get (Clientset k) namespace podName;
  match err with
  | Some e => mret (Some (Wrap "failed to get pod: " e))
  | None =>
      (* Check if pod has service account token volume *)
      let hasTokenVolume :=
        foldl (λ hasTokenVolume volume,
                 match Projected volume with
                 | Some projected => sourcesLoop (Sources projected) hasTokenVolume
                 | None => hasTokenVolume
                 end) false (Volumes (pod_Spec pod)) in
      if negb hasTokenVolume
      then mret (Some (New "pod does not have service account token volume mounted"))
      else mret None
  end.

(** The loop of [TestPodDNS] over the events of the watch, each of them
    carrying a pod. *)
Fixpoint watchLoop (events : list corev1.Pod) : bool * option error :=
  match events with
  | [] => (false, Some (New "watch ended before pod completion"))
  | pod :: rest =>
      if bool_decide (pod_Phase pod = PodSucceeded) then (true, None)
      else if bool_decide (pod_Phase pod = PodFailed)
           then (false, Some (New "DNS test failed"))
           else watchLoop rest
  end.

(** [TestPodDNS]: a disposable pod running [nslookup]; the deferred
    call of [Delete] is made on every return after the creation. *)
Definition TestPodDNS (namespace podName hostname : string) : M W (bool * option error) :=
  let testPod :=
    {| pod_Name := ""; pod_GenerateName := "dns-test-"; pod_Namespace := namespace;
       pod_Spec :=
         {| Volumes := [];
            Containers := [ {| ctr_Name := "dns-test"; ctr_Image := "busybox";
                               ctr_Command := ["nslookup"; hostname];
                               ctr_Env := []; ctr_Requests := ∅ |} ];
            corev1.NodeName := ""; ServiceAccountName := "";
            RestartPolicy := RestartPolicyNever |};
       pod_Phase := ""; pod_Message := ""; pod_Conditions := [] |} in
  '(pod, err) ← Pods_Create (Clientset k) namespace testPod;
  match err with
  | Some e => mret (false, Some (Wrap "failed to create test pod: " e))
  | None =>
      '(events, err) ← Pods_Watch (Clientset k) namespace (pod_Name pod);
      let result :=
        match err with
        | Some e => (false, Some (Wrap "failed to watch test pod: " e))
        | None => watchLoop events
        end in
      _ ← Pods_Delete (Clientset k) namespace (pod_Name pod);
      mret result
  end.

(** [GetEFSCSIStatus]: the controller pods of the EFS CSI driver; a pod
    that is not running gets a message. *)
Definition GetEFSCSIStatus : M W (list PodStatus * option error) :=
  '(pods, err) ← Pods_List (Clientset k) "kube-system"
      {| LabelSelector := "app=efs-csi-controller"; FieldSelector := "" |};
  match err with
  | Some e => mret ([], Some (Wrap "failed to list EFS CSI pods: " e))
  | None =>
      mret (foldl (λ status pod,
              let podStatus :=
                {| Name := pod_Name pod; Namespace := pod_Namespace pod;
                   Status := pod_Phase pod; NodeName := ""; Phase := "";
                   Spec := emptyPodSpec; Message := "";
                   Requirements := {| req_CPU := ""; req_Memory := "" |} |} in
              let podStatus :=
                if negb (bool_decide (pod_Phase pod = PodRunning))
                then {| Name := Name podStatus; Namespace := Namespace podStatus;
                        Status := Status podStatus; NodeName := NodeName podStatus;
                        Phase := Phase podStatus; Spec := Spec podStatus;
                        Message := "Pod is not in Running state";
                        Requirements := Requirements podStatus |}
                else podStatus in
              status ++ [podStatus]) [] pods, None)
  end.

(** A line of [logger.Warning]: its format and its arguments. *)
Record LoggedWarning := { log_format : string; log_args : list string }.

(** [AnalyzeUnschedulablePods]: a warning for every "not scheduled"
    condition of every pending pod; the result is what it logs and the
    error it returns. *)
Definition AnalyzeUnschedulablePods : M W (list LoggedWarning * option error) :=
  '(pods, err) ← Pods_List (Clientset k) ""
      {| LabelSelector := ""; FieldSelector := "status.phase=Pending" |};
  match err with
  | Some e => mret ([], Some e)
  | None =>
      mret (foldl (λ logged pod,
              foldl (λ logged cond,
                if bool_decide (pc_Type cond = PodScheduled)
                   && bool_decide (pc_Status cond = ConditionFalse)
                then logged ++
                       [ {| log_format := "Pod %s/%s is unschedulable: %s";
                            log_args := [pod_Namespace pod; pod_Name pod; pc_Message cond] |} ]
                else logged) logged (pod_Conditions pod)) [] pods, None)
  end.

End Checks.

End k8s.

(** ** Package cmd: the health summary *)

Module cmd.
Import k8s.

(** What the summary writes: a line of the logger with its format and
    arguments, or a line of [fmt.Println]. *)
Inductive Line : Type :=
  | Warning (format : string) (args : list Z)
  | Success (format : string)
  | Println (text : string).

(** The two counters of [printHealthSummary] when it returns, and the
    lines it has written. *)
Record Summary := {
  totalIssues : Z;
  criticalIssues : Z;
  printed : list Line }.

Definition recommendedActions (status : ClusterHealthStatus) : list Line :=
  (if 1 <? Z.of_nat (size (NodeVersions status))
   then [Println "1. Upgrade nodes to match control plane version"] else []) ++
  (if 0 <? len (DeprecatedAPIs status)
   then [Println "2. Update applications using deprecated APIs"] else []) ++
  (if 0 <? len (IRSAIssues (Auth status))
   then [Println "3. Fix IRSA configuration issues"] else []) ++
  (if 0 <? len (RBACIssues (Auth status))
   then [Println "4. Review and fix RBAC issues"] else []) ++
  (if 0 <? len (NotReady (Nodes status))
   then [Println "5. Investigate nodes in NotReady state"] else []) ++
  (if 0 <? len (PendingPods (Scheduling status))
   then [Println "6. Address pod scheduling issues"] else []) ++
  (if 0 <? len (PendingServices (LoadBalancer status))
   then [Println "7. Check LoadBalancer provisioning issues"] else []).

Definition printHealthSummary (status : ClusterHealthStatus) : Summary :=
  let totalIssues := 0 in
  let criticalIssues := 0 in
  (* Count issues by category *)
  let criticalIssues :=
    if 1 <? Z.of_nat (size (NodeVersions status))
    then add64 criticalIssues 1      (* Version mismatch is critical *)
    else criticalIssues in
  let totalIssues := add64 totalIssues (len (DeprecatedAPIs status)) in
  let totalIssues := add64 totalIssues (len (IRSAIssues (Auth status))) in
  let totalIssues := add64 totalIssues (len (RBACIssues (Auth status))) in
  let totalIssues := add64 totalIssues (len (NotReady (Nodes status))) in
  let totalIssues := add64 totalIssues (len (PendingPods (Scheduling status))) in
  let totalIssues := add64 totalIssues (len (PendingServices (LoadBalancer status))) in
  let out :=
    if 0 <? criticalIssues
    then [Warning "Found %d critical issues that need immediate attention" [criticalIssues]]
    else [] in
  let out :=
    if 0 <? totalIssues
    then out ++ [Warning "Total issues found: %d" [totalIssues];
                 Println (String (Ascii.ascii_of_nat 10) "Recommended actions:")]
             ++ recommendedActions status
    else out ++ [Success "No issues found - cluster is healthy!"] in
  {| totalIssues := totalIssues; criticalIssues := criticalIssues; printed := out |}.

(** *** The status printers of the health command *)

(** An argument of a format, and a line written by the printers: through
    the logger, with its level, or through [fmt.Println]. *)
Inductive Arg : Type :=
  | Str (s : string)
  | Int (n : Z)
  | Float (f : float).

Inductive Event : Type :=
  | LogWarning (format : string) (args : list Arg)
  | LogSuccess (format : string) (args : list Arg)
  | PrintLine (text : string).

Definition printNetworkingStatus (status : NetworkingStatus) : list Event :=
  (* CNI Status *)
  let out :=
    if 0 <? len (CNIStatus status)
    then foldl (λ out pod,
           if negb (bool_decide (Status pod = "Running"))
           then out ++ [LogWarning "❌ AWS CNI pod %s is %s: %s"
                          [Str (Name pod); Str (Status pod); Str (Message pod)]]
           else out ++ [LogSuccess "✅ AWS CNI pod %s is running" [Str (Name pod)]])
           [PrintLine (String (Ascii.ascii_of_nat 10) "AWS CNI Status:")] (CNIStatus status)
    else [] in
  (* CoreDNS Status *)
  let out :=
    if 0 <? len (CoreDNSStatus status)
    then foldl (λ out pod,
           if negb (bool_decide (Status pod = "Running"))
           then out ++ [LogWarning "❌ CoreDNS pod %s is %s: %s"
                          [Str (Name pod); Str (Status pod); Str (Message pod)]]
           else out ++ [LogSuccess "✅ CoreDNS pod %s is running" [Str (Name pod)]])
           (out ++ [PrintLine (String (Ascii.ascii_of_nat 10) "CoreDNS Status:")])
           (CoreDNSStatus status)
    else out in
  (* External Access & DNS Resolution *)
  let out :=
    if ExternalAccess status
    then out ++ [LogSuccess "✅ External network access is working" []]
    else out ++ [LogWarning "❌ External network access issues detected" []] in
  let out :=
    if DNSResolution status
    then out ++ [LogSuccess "✅ DNS resolution is working" []]
    else out ++ [LogWarning "❌ DNS resolution issues detected" []] in
  out.

Definition printAuthStatus (status : AuthStatus) : list Event :=
  let out :=
    if 0 <? len (IRSAIssues status)
    then foldl (λ out issue, out ++ [PrintLine ("- " +:+ issue)])
           [LogWarning "❌ IRSA issues detected:" []] (IRSAIssues status)
    else [LogSuccess "✅ No IRSA issues detected" []] in
  let out :=
    if 0 <? len (RBACIssues status)
    then foldl (λ out issue, out ++ [PrintLine ("- " +:+ issue)])
           (out ++ [LogWarning (String (Ascii.ascii_of_nat 10) "❌ RBAC issues detected:") []])
           (RBACIssues status)
    else out ++ [LogSuccess "✅ No RBAC issues detected" []] in
  let out :=
    if 0 <? len (IAMAuthIssues status)
    then foldl (λ out issue, out ++ [PrintLine ("- " +:+ issue)])
           (out ++ [LogWarning (String (Ascii.ascii_of_nat 10)
                                  "❌ IAM authentication issues detected:") []])
           (IAMAuthIssues status)
    else out ++ [LogSuccess "✅ No IAM authentication issues detected" []] in
  out.

End cmd.

(** ** Package aws: node groups and role names *)

Module aws.

(** [strings.Split(s, sep)] for a separator of one byte: the pieces of
    [s] between the occurrences of the separator; one piece, [s] itself,
    when there is none. *)
Fixpoint Split (s : string) (sep : Ascii.ascii) : list string :=
  match s with
  | EmptyString => [EmptyString]
  | String c rest =>
      if bool_decide (c = sep) then EmptyString :: Split rest sep
      else match Split rest sep with
           | part :: parts => String c part :: parts
           | [] => [String c EmptyString]
           end
  end.

(** The byte ["/"]. *)
Definition slash : Ascii.ascii := Ascii.ascii_of_nat 47.

Definition extractRoleNameFromARN (arn : string) : string :=
  (* ARN format: arn:aws:iam::123456789012:role/role-name *)
  let parts := Split arn slash in
  if len parts <? 2 then ""
  else default "" (parts !! Z.to_nat (len parts - 1)).

(** The part of the EKS API that [ValidateNodeGroupsConfig] reads.  The
    pointers of the SDK types are options; the sizes are [int32]. *)
Record NodegroupScalingConfig := {
  DesiredSize : option Z;
  MaxSize : option Z;
  MinSize : option Z }.

Record Nodegroup := { ScalingConfig : option NodegroupScalingConfig }.

Record DescribeNodegroupOutput := { out_Nodegroup : option Nodegroup }.

Record EKSAPI (W : Type) := {
  ListNodegroups : string → M W (list string * option error);
  DescribeNodegroup : string → string → M W (DescribeNodegroupOutput * option error) }.

Arguments ListNodegroups {W}.
Arguments DescribeNodegroup {W}.

(** How a call ends: it returns its error, or it panics on a nil
    pointer. *)
Inductive Outcome : Type :=
  | Return (err : option error)
  | Panic.

Section Client.
Context {W : Type} (c : EKSAPI W).

(** The loop of [ValidateNodeGroupsConfig] over the names of the node
    groups. *)
Fixpoint nodegroupsLoop (clusterName : string) (nodegroups : list string) : M W Outcome :=
  match nodegroups with
  | [] => mret (Return None)
  | ng :: rest =>
      '(desc, err) ← DescribeNodegroup c clusterName ng;
      match err with
      | Some e =>
          mret (Return (Some (Wrap ("failed to describe nodegroup " +:+ ng +:+ ": ") e)))
      | None =>
          match out_Nodegroup desc with
          | None => mret Panic
          | Some nodegroup =>
          match ScalingConfig nodegroup with
          | None => mret Panic
          | Some scaling =>
              (* Check for common misconfiguration issues *)
              match MinSize scaling, MaxSize scaling with
              | Some minSize, Some maxSize =>
                  if maxSize <? minSize
                  then mret (Return (Some (New ("nodegroup " +:+ ng +:+
                                                  " has min size greater than max size"))))
                  else nodegroupsLoop clusterName rest
              | _, _ =>
                  mret (Return (Some (New ("nodegroup " +:+ ng +:+
                                             " has invalid scaling configuration"))))
              end
          end end
      end
  end.

Definition ValidateNodeGroupsConfig (clusterName : string) : M W Outcome :=
  '(result, err) ← ListNodegroups c clusterName;
  match err with
  | Some e => mret (Return (Some (Wrap "failed to list nodegroups: " e)))
  | None => nodegroupsLoop clusterName result
  end.

End Client.

End aws.

(** ** A recording client

    A client over fixed answers that records the requests it receives, in
    the manner of the fake clientset and its list of actions: the state of
    the API is the list of the requests made so far. *)

Module fake.
Import corev1 metav1 k8s.

Inductive Action : Type :=
  | ListNodes
  | ListDeployments (namespace : string)
  | ListPods (namespace : string) (opts : ListOptions)
  | GetPod (namespace name : string)
  | GetLogs (namespace name container : string)
  | CreatePod (namespace generateName : string)
  | DeletePod (namespace name : string)
  | WatchPod (namespace name : string)
  | ListServices (namespace : string)
  | ListIngresses (namespace : string)
  | ListServiceAccounts (namespace : string).

Record Answers := {
  nodes : list Node * option error;
  deployments : list ObjectMeta * option error;
  pods : string → ListOptions → list Pod * option error;
  pod : string → string → Pod * option error;
  logs : string → string → ReadCloser * option error;
  created : Pod → Pod * option error;
  events : string → string → list Pod * option error;
  services : list Service * option error;
  ingresses : list Ingress * option error;
  serviceAccounts : list ObjectMeta * option error }.

Definition answer {A} (a : A) (action : Action) : M (list Action) A :=
  λ actions, (a, actions ++ [action]).

Definition Clientset (a : Answers) : Interface (list Action) :=
  {| Nodes_List := λ _, answer (nodes a) ListNodes;
     Deployments_List := λ ns _, answer (deployments a) (ListDeployments ns);
     Pods_List := λ ns opts, answer (pods a ns opts) (ListPods ns opts);
     Pods_Get := λ ns name, answer (pod a ns name) (GetPod ns name);
     Pods_GetLogs := λ ns name c, answer (logs a ns name) (GetLogs ns name c);
     Pods_Create := λ ns p, answer (created a p) (CreatePod ns (pod_GenerateName p));
     Pods_Delete := λ ns name, answer None (DeletePod ns name);
     Pods_Watch := λ ns name, answer (events a ns name) (WatchPod ns name);
     Services_List := λ ns _, answer (services a) (ListServices ns);
     Ingresses_List := λ ns _, answer (ingresses a) (ListIngresses ns);
     ServiceAccounts_List := λ ns _, answer (serviceAccounts a) (ListServiceAccounts ns) |}.

Definition NewKubeClient (a : Answers) : KubeClient (list Action) :=
  {| k8s.Clientset := Clientset a |}.

Definition zeroPod : Pod :=
  {| pod_Name := ""; pod_GenerateName := ""; pod_Namespace := "";
     pod_Spec := emptyPodSpec; pod_Phase := ""; pod_Message := "";
     pod_Conditions := [] |}.

(** An empty cluster: every listing succeeds with no item, a pod that is
    read does not exist, and a created pod runs to success. *)
Definition empty : Answers :=
  {| nodes := ([], None);
     deployments := ([], None);
     pods := λ _ _, ([], None);
     pod := λ _ name, (zeroPod, Some (StatusError StatusReasonNotFound
                                        ("pods " +:+ name +:+ " not found")));
     logs := λ _ _, ({| rc_data := ""; rc_err := None |}, None);
     created := λ p,
       ({| pod_Name := pod_GenerateName p +:+ "x7k2f"; pod_GenerateName := pod_GenerateName p;
           pod_Namespace := pod_Namespace p; pod_Spec := pod_Spec p;
           pod_Phase := PodPending; pod_Message := ""; pod_Conditions := [] |}, None);
     events := λ ns name,
       ([ {| pod_Name := name; pod_GenerateName := ""; pod_Namespace := ns;
             pod_Spec := emptyPodSpec; pod_Phase := PodRunning; pod_Message := "";
             pod_Conditions := [] |};
          {| pod_Name := name; pod_GenerateName := ""; pod_Namespace := ns;
             pod_Spec := emptyPodSpec; pod_Phase := PodSucceeded; pod_Message := "";
             pod_Conditions := [] |} ], None);
     services := ([], None);
     ingresses := ([], None);
     serviceAccounts := ([], None) |}.

Definition with_nodes (v : list Node * option error) (a : Answers) : Answers :=
  {| nodes := v; deployments := deployments a; pods := pods a; pod := pod a;
     logs := logs a; created := created a; events := events a;
     services := services a; ingresses := ingresses a;
     serviceAccounts := serviceAccounts a |}.

Definition with_pods (v : string → ListOptions → list Pod * option error) (a : Answers)
    : Answers :=
  {| nodes := nodes a; deployments := deployments a; pods := v; pod := pod a;
     logs := logs a; created := created a; events := events a;
     services := services a; ingresses := ingresses a;
     serviceAccounts := serviceAccounts a |}.

Definition with_pod (v : string → string → Pod * option error) (a : Answers) : Answers :=
  {| nodes := nodes a; deployments := deployments a; pods := pods a; pod := v;
     logs := logs a; created := created a; events := events a;
     services := services a; ingresses := ingresses a;
     serviceAccounts := serviceAccounts a |}.

(** A recording EKS client over fixed answers: the state is the list of
    the node groups described so far. *)
Definition EKS (nodegroups : list string * option error)
    (describe : string → aws.DescribeNodegroupOutput * option error)
    : aws.EKSAPI (list string) :=
  {| aws.ListNodegroups := λ _ described, (nodegroups, described);
     aws.DescribeNodegroup := λ _ ng described, (describe ng, described ++ [ng]) |}.

End fake.

(** ** The scenarios of the specification *)

Module scenario.
Import corev1 metav1 k8s.

Definition node (name version : string) (conditions : list NodeCondition)
    (capacity : gmap string Quantity) : Node :=
  {| node_Name := name; node_KubeletVersion := version;
     node_Conditions := conditions; node_Capacity := capacity |}.

Definition ready : NodeCondition :=
  {| nc_Type := NodeReady; nc_Status := ConditionTrue; nc_Message := "kubelet is posting ready status" |}.

(** Version skew: [n1] runs kubelet 1.28, [n2] and [n3] run 1.29. *)
Definition skewNodes : list Node :=
  [ node "n1" "1.28" [ready] ∅; node "n2" "1.29" [ready] ∅; node "n3" "1.29" [ready] ∅ ].

Definition skew : fake.Answers := fake.with_nodes (skewNodes, None) fake.empty.

(** The snapshot of the version-skew scenario. *)
Definition skewStatus : ClusterHealthStatus :=
  set_NodeVersions {[ "1.28" := ["n1"]; "1.29" := ["n2"; "n3"] ]} newStatus.

(** Scheduling: one node of capacity 4000m CPU and 8Gi of memory, and one
    pod bound to it that requests 1000m CPU and 1Gi. *)
Definition Gi : Z := 1024 * 1024 * 1024.


Definition testContainer : Container :=
  {| ctr_Name := "test-container"; ctr_Image := ""; ctr_Command := []; ctr_Env := [];
     ctr_Requests := {[ ResourceCPU := {| milli := 1000 |};
                        ResourceMemory := {| milli := 1 * Gi * 1000 |} ]} |}.

Definition testPod : Pod :=
  {| pod_Name := "test-pod"; pod_GenerateName := ""; pod_Namespace := "default";
     pod_Spec :=
       {| Volumes := []; Containers := [testContainer];
          corev1.NodeName := "test-node"; ServiceAccountName := "";
          RestartPolicy := "" |};
     pod_Phase := PodRunning; pod_Message := ""; pod_Conditions := [] |}.


(** Pending pods: [web-0] is bound to a node and waits for its image,
    [db-0] could not be scheduled. *)
Definition pendingPod (name : string) (conditions : list PodCondition) : Pod :=
  {| pod_Name := name; pod_GenerateName := ""; pod_Namespace := "default";
     pod_Spec := emptyPodSpec; pod_Phase := PodPending; pod_Message := "";
     pod_Conditions := conditions |}.

Definition web0 : Pod :=
  pendingPod "web-0"
    [ {| pc_Type := PodScheduled; pc_Status := ConditionTrue; pc_Message := "" |} ].

Definition db0 : Pod :=
  pendingPod "db-0"
    [ {| pc_Type := PodScheduled; pc_Status := ConditionFalse;
         pc_Message := "0/3 nodes are available: 3 Insufficient cpu." |} ].

Definition pending : fake.Answers :=
  fake.with_pods
    (λ _ opts, if bool_decide (FieldSelector opts = "status.phase=Pending")
               then ([web0; db0], None) else ([], None))
    fake.empty.

(** Nodes that are not ready: the kubelet of [n1] stopped reporting;
    [n2] lists two conditions of type [Ready]. *)
Definition downNodes : list Node :=
  [ node "n1" "1.29"
      [ {| nc_Type := "MemoryPressure"; nc_Status := ConditionFalse;
           nc_Message := "kubelet has sufficient memory available" |};
        {| nc_Type := NodeReady; nc_Status := ConditionFalse;
           nc_Message := "kubelet stopped posting node status" |} ] ∅;
    node "n2" "1.29"
      [ {| nc_Type := NodeReady; nc_Status := ConditionUnknown; nc_Message := "stale" |};
        ready ] ∅ ].

Definition down : fake.Answers := fake.with_nodes (downNodes, None) fake.empty.

(** The two pods of the IRSA scenario: both set [AWS_ROLE_ARN]; only the
    first mounts a projected service-account token. *)
Definition irsaContainer : Container :=
  {| ctr_Name := ""; ctr_Image := ""; ctr_Command := [];
     ctr_Env :=
       [ {| env_Name := "AWS_ROLE_ARN";
            env_Value := "arn:aws:iam::123456789012:role/test-role" |};
         {| env_Name := "AWS_WEB_IDENTITY_TOKEN_FILE";
            env_Value := "/var/run/secrets/eks.amazonaws.com/serviceaccount/token" |} ];
     ctr_Requests := ∅ |}.

Definition irsaPod (name : string) (volumes : list Volume) : Pod :=
  {| pod_Name := name; pod_GenerateName := ""; pod_Namespace := "default";
     pod_Spec := {| Volumes := volumes; Containers := [irsaContainer];
                    corev1.NodeName := ""; ServiceAccountName := "";
                    RestartPolicy := "" |};
     pod_Phase := PodRunning; pod_Message := ""; pod_Conditions := [] |}.

Definition validPod : Pod :=
  irsaPod "valid"
    [ {| vol_Name := "aws-token";
         Projected := Some {| Sources :=
           [ {| ServiceAccountToken := Some {| satp_Audience := ""; satp_Path := "" |} |} ] |} |} ].

Definition missingPod : Pod := irsaPod "missing" [].

Definition irsa : fake.Answers :=
  fake.with_pod
    (λ _ name, if bool_decide (name = "valid") then (validPod, None)
               else if bool_decide (name = "missing") then (missingPod, None)
               else fake.pod fake.empty "default" name)
    fake.empty.

(** The accessor of the Networking check is denied: the listings of the
    pods of [kube-system] fail, every other request succeeds. *)
Definition denied : error :=
  StatusError StatusReasonForbidden "pods is forbidden: cannot list resource".

Definition networkingDenied : fake.Answers :=
  fake.with_pods
    (λ namespace opts,
       if bool_decide (namespace = "kube-system") then ([], Some denied)
       else fake.pods pending namespace opts)
    (fake.with_nodes (downNodes, None) fake.empty).

(** Node groups: [workers] scales from 1 to 3, [batch] from 5 to 3,
    [spot] has no scaling configuration. *)
Definition scaling (minSize maxSize : Z) : aws.DescribeNodegroupOutput * option error :=
  ({| aws.out_Nodegroup :=
        Some {| aws.ScalingConfig :=
                  Some {| aws.DesiredSize := None; aws.MaxSize := Some maxSize;
                          aws.MinSize := Some minSize |} |} |}, None).

Definition describe (ng : string) : aws.DescribeNodegroupOutput * option error :=
  if bool_decide (ng = "batch") then scaling 5 3
  else if bool_decide (ng = "spot")
       then ({| aws.out_Nodegroup := Some {| aws.ScalingConfig := None |} |}, None)
       else scaling 1 3.

(** The controller pods of the EFS CSI driver: one runs, one is pending. *)
Definition efsPods : list Pod :=
  [ {| pod_Name := "efs-csi-controller-0"; pod_GenerateName := "";
       pod_Namespace := "kube-system"; pod_Spec := emptyPodSpec;
       pod_Phase := PodRunning; pod_Message := ""; pod_Conditions := [] |};
    {| pod_Name := "efs-csi-controller-1"; pod_GenerateName := "";
       pod_Namespace := "kube-system"; pod_Spec := emptyPodSpec;
       pod_Phase := PodPending; pod_Message := ""; pod_Conditions := [] |} ].

Definition efs : fake.Answers :=
  fake.with_pods
    (λ _ opts, if bool_decide (LabelSelector opts = "app=efs-csi-controller")
               then (efsPods, None) else ([], None))
    fake.empty.

End scenario.

Import corev1 metav1 k8s cmd.

(** * Vocabulary of the properties *)

(** One iteration of the loop of [checkVersionMismatch], on the map. *)
Definition addNode (versions : gmap string (list string)) (node : Node)
    : gmap string (list string) :=
  <[node_KubeletVersion node :=
      default [] (versions !! node_KubeletVersion node) ++ [node_Name node]]> versions.

(** The names of the nodes that report [version], in listing order. *)
Definition nodesRunning (version : string) (nodes : list Node) : list string :=
  node_Name <$> filter (λ node, node_KubeletVersion node = version) nodes.

(** A "not scheduled" condition of a pod. *)
Definition notScheduled (cond : PodCondition) : Prop :=
  pc_Type cond = PodScheduled ∧ pc_Status cond = ConditionFalse.

#[global] Instance notScheduled_dec cond : Decision (notScheduled cond).
Proof. unfold notScheduled. apply _. Defined.

(** The issue recorded for a listed pod: its reason is the message of the
    first "not scheduled" condition, and is empty without one. *)
Definition schedulingIssue (pod : Pod) : PodSchedulingIssue :=
  {| psi_Pod := pod_Name pod; psi_Namespace := pod_Namespace pod;
     psi_Reason := default "" (pc_Message <$> head (filter notScheduled (pod_Conditions pod))) |}.

(** A node is ready when its first condition of type [Ready] has status
    [True]. *)
Definition isReady (node : Node) : bool :=
  match head (filter (λ c, nc_Type c = NodeReady) (node_Conditions node)) with
  | Some c => bool_decide (nc_Status c = ConditionTrue)
  | None => false
  end.

(** The bootstrap issues of a node: one for each of its conditions with
    status [False], whatever the type. *)
Definition bootstrapIssue (node : Node) (c : NodeCondition) : string :=
  "Node " +:+ node_Name node +:+ ": " +:+ nc_Type c +:+ " - " +:+ nc_Message c.

Definition bootstrapIssues (node : Node) : list string :=
  bootstrapIssue node <$> filter (λ c, nc_Status c = ConditionFalse) (node_Conditions node).

(** A pod mounts a projected volume with a service-account-token source. *)
Definition hasTokenVolume (pod : Pod) : Prop :=
  ∃ volume projected source,
    volume ∈ Volumes (pod_Spec pod) ∧ Projected volume = Some projected ∧
    source ∈ Sources projected ∧ is_Some (ServiceAccountToken source).

(** A container of the pod has the environment variable [name]. *)
Definition hasEnv (name : string) (pod : Pod) : Prop :=
  ∃ container var,
    container ∈ Containers (pod_Spec pod) ∧ var ∈ ctr_Env container ∧ env_Name var = name.

(** *** The checks of a run *)

(** A check as [CheckClusterHealth] calls it: on the whole status. *)
Definition Check (W : Type) : Type :=
  ClusterHealthStatus → M W (ClusterHealthStatus * option error).

Section Run.
Context {W : Type}.

(** A check that is handed a pointer to one field of the status. *)
Definition onField {S} (get : ClusterHealthStatus → S)
    (set : S → ClusterHealthStatus → ClusterHealthStatus)
    (check : S → M W (S * option error)) : Check W :=
  λ status, '(sub, err) ← check (get status); mret (set sub status, err).

(** The checks of [CheckClusterHealth], in the order of the calls. *)
Definition checks (k : KubeClient W) : list (Check W) :=
  [ checkVersionMismatch k;
    checkDeprecatedAPIs k;
    checkLoggingStatus k;
    onField Networking set_Networking (checkNetworkingStatus k);
    onField LoadBalancer set_LoadBalancer (checkLoadBalancerStatus k);
    onField Scheduling set_Scheduling (checkSchedulingStatus k);
    onField Auth set_Auth (checkAuthStatus k);
    onField Nodes set_Nodes (checkNodeStatus k) ].

(** The checks a run executes, each with the status it leaves, the error
    it returns and the state of the API after it: the next check is
    executed only when the previous one returned no error. *)
Fixpoint executed (cs : list (Check W)) (status : ClusterHealthStatus) (w : W)
    : list (ClusterHealthStatus * option error * W) :=
  match cs with
  | [] => []
  | c :: cs' =>
      let '((status', err), w') := c status w in
      (status', err, w') ::
        match err with
        | Some _ => []
        | None => executed cs' status' w'
        end
  end.

End Run.

(** *** The other checks *)

(** A deployment carries the deprecation marker, whatever its value. *)
Definition deprecated (deploy : ObjectMeta) : Prop :=
  is_Some (index (meta_Annotations deploy) "deprecated.kubernetes.io").

#[global] Instance deprecated_dec deploy : Decision (deprecated deploy).
Proof. unfold deprecated. apply _. Defined.

Definition deprecationFinding (deploy : ObjectMeta) : string :=
  "Deployment " +:+ meta_Namespace deploy +:+ "/" +:+ meta_Name deploy +:+
  " uses deprecated APIs".

(** An error that is nil or a not-found error. *)
Definition tolerated (err : option error) : Prop :=
  ∀ e, err = Some e → IsNotFound e = true.

(** A service of type [LoadBalancer] without an ingress point. *)
Definition pendingLoadBalancer (svc : Service) : Prop :=
  svc_Type svc = ServiceTypeLoadBalancer ∧ svc_Ingress svc = [].

#[global] Instance pendingLoadBalancer_dec svc : Decision (pendingLoadBalancer svc).
Proof. unfold pendingLoadBalancer. apply _. Defined.

Definition serviceKey (svc : Service) : string :=
  svc_Namespace svc +:+ "/" +:+ svc_Name svc.

Definition ingressStatus (ing : Ingress) : IngressStatus :=
  {| is_Name := ing_Name ing; is_Namespace := ing_Namespace ing;
     is_Status := if decide (ing_Ingress ing = []) then "Pending" else "Ready";
     is_Problems := [] |}.

(** A service account that carries the role annotation of IRSA. *)
Definition annotatedWithRole (account : ObjectMeta) : Prop :=
  is_Some (index (meta_Annotations account) "eks.amazonaws.com/role-arn").

(** The status [GetEFSCSIStatus] gives for a pod. *)
Definition efsStatus (pod : Pod) : PodStatus :=
  {| Name := pod_Name pod; Namespace := pod_Namespace pod;
     Status := pod_Phase pod; NodeName := ""; Phase := "";
     Spec := emptyPodSpec;
     Message := if decide (pod_Phase pod = PodRunning) then ""
                else "Pod is not in Running state";
     Requirements := {| req_CPU := ""; req_Memory := "" |} |}.

(** The warnings [AnalyzeUnschedulablePods] logs for a pod. *)
Definition unschedulableWarnings (pod : Pod) : list LoggedWarning :=
  (λ cond, {| log_format := "Pod %s/%s is unschedulable: %s";
              log_args := [pod_Namespace pod; pod_Name pod; pc_Message cond] |})
  <$> filter notScheduled (pod_Conditions pod).

(** The first event of a watch that shows a terminal phase. *)
Definition terminal (pod : Pod) : Prop :=
  pod_Phase pod = PodSucceeded ∨ pod_Phase pod = PodFailed.

#[global] Instance terminal_dec pod : Decision (terminal pod).
Proof. unfold terminal. apply _. Defined.

(** What the first terminal event of the watch makes [TestPodDNS]
    return. *)
Definition verdict (events : list Pod) : bool * option error :=
  match head (filter terminal events) with
  | Some pod =>
      if decide (pod_Phase pod = PodSucceeded) then (true, None)
      else (false, Some (New "DNS test failed"))
  | None => (false, Some (New "watch ended before pod completion"))
  end.

(** The capacities [GetClusterResources] adds up. *)
Definition cpuCapacity (node : Node) : Z := MilliValue (Cpu (node_Capacity node)).
Definition memoryCapacity (node : Node) : Z := Value (corev1.Memory (node_Capacity node)).

(** *** Sums of resources *)




(** The texts of the lines that a summary writes with [fmt.Println], in
    the order of the output. *)
Definition printlns (lines : list Line) : list string :=
  omap (λ line, match line with Println text => Some text | _ => None end) lines.

(** The six lists that [printHealthSummary] counts are empty. *)
Definition noFindings (status : ClusterHealthStatus) : Prop :=
  DeprecatedAPIs status = [] ∧ IRSAIssues (Auth status) = [] ∧
  RBACIssues (Auth status) = [] ∧ NotReady (Nodes status) = [] ∧
  PendingPods (Scheduling status) = [] ∧ PendingServices (LoadBalancer status) = [].

(** A string without the byte ["/"]. *)
Fixpoint noSlash (s : string) : Prop :=
  match s with
  | EmptyString => True
  | String c rest => c ≠ aws.slash ∧ noSlash rest
  end.

(** A description of a node group that passes [ValidateNodeGroupsConfig]:
    no error, both sizes present, and the minimum not above the
    maximum. *)
Definition validNodegroup (answer : aws.DescribeNodegroupOutput * option error) : Prop :=
  answer.2 = None ∧
  ∃ nodegroup scaling minSize maxSize,
    aws.out_Nodegroup answer.1 = Some nodegroup ∧
    aws.ScalingConfig nodegroup = Some scaling ∧
    aws.MinSize scaling = Some minSize ∧ aws.MaxSize scaling = Some maxSize ∧
    minSize ≤ maxSize.

(** * Properties *)

(** ** VersionSkew: the grouping of the nodes by kubelet version *)

Section VersionSkew.
Context {W : Type} (k : KubeClient W).

Lemma checkVersionMismatch_loop nodes status :
  foldl (λ status node,
           let version := node_KubeletVersion node in
           set_NodeVersions
             (<[version := default [] (NodeVersions status !! version) ++ [node_Name node]]>
                (NodeVersions status)) status) status nodes
  = set_NodeVersions (foldl addNode (NodeVersions status) nodes) status.
Proof.
  revert status. induction nodes as [|node nodes IH]; intros status; simpl.
  - by destruct status.
  - rewrite IH. reflexivity.
Qed.

Lemma addNode_lookup versions node version :
  addNode versions node !! version =
    if decide (node_KubeletVersion node = version)
    then Some (default [] (versions !! version) ++ [node_Name node])
    else versions !! version.
Proof.
  unfold addNode. case_decide as Hv.
  - subst version. by rewrite lookup_insert_eq.
  - by rewrite lookup_insert_ne.
Qed.

Lemma foldl_addNode_lookup nodes versions version :
  foldl addNode versions nodes !! version =
    if decide (nodesRunning version nodes = [])
    then versions !! version
    else Some (default [] (versions !! version) ++ nodesRunning version nodes).
Proof.
  revert versions. unfold nodesRunning.
  induction nodes as [|node nodes IH]; intros versions; [done|].
  simpl. rewrite IH, addNode_lookup, filter_cons. clear IH.
  destruct (decide (node_KubeletVersion node = version)) as [Hv|Hv].
  - rewrite fmap_cons. destruct (decide (_ :: _ = [])) as [?|_]; [done|].
    case_decide as Hrest.
    + by rewrite Hrest.
    + simpl. by rewrite <- app_assoc.
  - done.
Qed.

Lemma checkVersionMismatch_ok nodes status w w' :
  Nodes_List (Clientset k) noOptions w = ((nodes, None), w') →
  checkVersionMismatch k status w
  = ((set_NodeVersions (foldl addNode (NodeVersions status) nodes) status, None), w').
Proof.
  intros Hlist. unfold checkVersionMismatch, mbind, M_bind, bind.
  rewrite Hlist. simpl. by rewrite checkVersionMismatch_loop.
Qed.

End VersionSkew.

(** C3.  When the node listing succeeds, [checkVersionMismatch] run on a
    status with no version yet files every node under the key of its own
    kubelet version and nowhere else: the entry of a version is the list
    of the names of the nodes that report it, and a version no node
    reports has no entry.  When the nodes are [n1] on 1.28 and [n2], [n3]
    on 1.29, the map is [{"1.28": [n1], "1.29": [n2, n3]}], it has two
    keys, and the summary counts one critical issue. *)
Theorem checkVersionMismatch_groups_by_version
    {W} (k : KubeClient W) (nodes : list Node) (status : ClusterHealthStatus) (w w' : W) :
  Nodes_List (Clientset k) noOptions w = ((nodes, None), w') →
  NodeVersions status = ∅ →
  ∃ status',
    checkVersionMismatch k status w = ((status', None), w') ∧
    (∀ version,
       NodeVersions status' !! version =
         if decide (nodesRunning version nodes = []) then None
         else Some (nodesRunning version nodes)) ∧
    ((λ node, (node_Name node, node_KubeletVersion node)) <$> nodes
       = [("n1", "1.28"); ("n2", "1.29"); ("n3", "1.29")] →
     NodeVersions status' = {[ "1.28" := ["n1"]; "1.29" := ["n2"; "n3"] ]} ∧
     size (NodeVersions status') = 2%nat ∧
     criticalIssues (printHealthSummary status') = 1).
Proof.
  intros Hlist Hempty. eexists. split; [by apply checkVersionMismatch_ok|].
  destruct status as [versions ? ? ? ? ? ? ?]; simpl in *; subst versions.
  split.
  - intros version. rewrite foldl_addNode_lookup, lookup_empty.
    by case_decide.
  - intros Hnodes.
    destruct nodes as [|[n1 v1 ? ?] [|[n2 v2 ? ?] [|[n3 v3 ? ?] [|? ?]]]]; try discriminate.
    simpl in Hnodes. injection Hnodes as -> -> -> -> -> ->.
    assert (foldl addNode ∅
              [ {| node_Name := "n1"; node_KubeletVersion := "1.28";
                   node_Conditions := node_Conditions0; node_Capacity := node_Capacity0 |};
                {| node_Name := "n2"; node_KubeletVersion := "1.29";
                   node_Conditions := node_Conditions1; node_Capacity := node_Capacity1 |};
                {| node_Name := "n3"; node_KubeletVersion := "1.29";
                   node_Conditions := node_Conditions2; node_Capacity := node_Capacity2 |} ]
            = {[ "1.28" := ["n1"]; "1.29" := ["n2"; "n3"] ]}) as ->.
    { unfold addNode; simpl. by vm_compute. }
    split; [done|]. split; [by vm_compute|].
    unfold printHealthSummary; simpl.
    replace (size _) with 2%nat by (by vm_compute). reflexivity.
Qed.

Lemma checkVersionMismatch_groups_by_version_witness :
  ∃ status',
    checkVersionMismatch (fake.NewKubeClient scenario.skew) newStatus []
      = ((status', None), [fake.ListNodes]) ∧
    NodeVersions status' !! "1.28" = Some ["n1"] ∧
    NodeVersions status' !! "1.29" = Some ["n2"; "n3"] ∧
    NodeVersions status' !! "1.30" = None ∧
    size (NodeVersions status') = 2%nat ∧
    criticalIssues (printHealthSummary status') = 1.
Proof.
  destruct (checkVersionMismatch_groups_by_version
              (fake.NewKubeClient scenario.skew) scenario.skewNodes newStatus
              [] [fake.ListNodes] eq_refl eq_refl)
    as (status' & Hrun & Hgroups & Hskew).
  exists status'. split; [exact Hrun|].
  split; [exact (Hgroups "1.28")|].
  split; [exact (Hgroups "1.29")|].
  split; [exact (Hgroups "1.30")|].
  apply (Hskew eq_refl).
Defined.

(** ** Scheduling: the pending pods *)

Section Scheduling.
Context {W : Type} (k : KubeClient W).

Lemma scheduledLoop_first conds pod namespace :
  scheduledLoop conds {| psi_Pod := pod; psi_Namespace := namespace; psi_Reason := "" |}
  = {| psi_Pod := pod; psi_Namespace := namespace;
       psi_Reason := default "" (pc_Message <$> head (filter notScheduled conds)) |}.
Proof.
  induction conds as [|cond conds IH]; [done|].
  simpl. rewrite filter_cons. unfold notScheduled at 1.
  destruct (decide (pc_Type cond = PodScheduled)) as [Ht|Ht];
    destruct (decide (pc_Status cond = ConditionFalse)) as [Hs|Hs];
    rewrite ?(bool_decide_eq_true_2 _ Ht), ?(bool_decide_eq_false_2 _ Ht),
            ?(bool_decide_eq_true_2 _ Hs), ?(bool_decide_eq_false_2 _ Hs); simpl.
  - rewrite decide_True by done. reflexivity.
  - rewrite decide_False by (intros [_ ?]; done). exact IH.
  - rewrite decide_False by (intros [? _]; done). exact IH.
  - rewrite decide_False by (intros [? _]; done). exact IH.
Qed.

Lemma checkSchedulingStatus_loop pods status :
  foldl (λ status pod,
           let issue := {| psi_Pod := pod_Name pod; psi_Namespace := pod_Namespace pod;
                           psi_Reason := "" |} in
           let issue := scheduledLoop (pod_Conditions pod) issue in
           set_PendingPods (PendingPods status ++ [issue]) status) status pods
  = set_PendingPods (PendingPods status ++ (schedulingIssue <$> pods)) status.
Proof.
  revert status. induction pods as [|pod pods IH]; intros status; simpl.
  - rewrite app_nil_r. by destruct status.
  - rewrite IH, scheduledLoop_first. simpl.
    unfold set_PendingPods; simpl. by rewrite <- app_assoc.
Qed.

Lemma checkSchedulingStatus_ResourceIssues status w :
  ResourceIssues (checkSchedulingStatus k status w).1.1 = ResourceIssues status.
Proof.
  unfold checkSchedulingStatus, mbind, M_bind, bind.
  destruct (Pods_List _ _ _ w) as [[pods [e|]] w']; simpl; [done|].
  by rewrite checkSchedulingStatus_loop.
Qed.

End Scheduling.

(** C5 (as amended).  When the listing of the pods in phase [Pending]
    succeeds, [checkSchedulingStatus] records one issue for every pod of
    the listing, in order, whether or not the pod carries a "not
    scheduled" condition: the reason of the issue is the message of the
    first condition of type [PodScheduled] with status [False], and is
    empty when the pod has none.  Nothing else of the status changes. *)
Theorem checkSchedulingStatus_records_every_listed_pod
    {W} (k : KubeClient W) (pods : list Pod) (status : SchedulingStatus) (w w' : W) :
  Pods_List (Clientset k) ""
    {| LabelSelector := ""; FieldSelector := "status.phase=Pending" |} w
    = ((pods, None), w') →
  ∃ status',
    checkSchedulingStatus k status w = ((status', None), w') ∧
    PendingPods status' = PendingPods status ++ (schedulingIssue <$> pods) ∧
    ResourceIssues status' = ResourceIssues status ∧
    (∀ pod, pod ∈ pods →
       (∀ cond, cond ∈ pod_Conditions pod → ¬ notScheduled cond) →
       {| psi_Pod := pod_Name pod; psi_Namespace := pod_Namespace pod; psi_Reason := "" |}
         ∈ PendingPods status').
Proof.
  intros Hlist. eexists. split.
  - unfold checkSchedulingStatus, mbind, M_bind, bind. rewrite Hlist. simpl.
    by rewrite checkSchedulingStatus_loop.
  - simpl. split; [done|]. split; [done|].
    intros pod Hpod Hnone. apply elem_of_app. right.
    apply list_elem_of_fmap. exists pod. split; [|done].
    unfold schedulingIssue. f_equal.
    destruct (filter notScheduled (pod_Conditions pod)) as [|cond rest] eqn:Hf; [done|].
    assert (cond ∈ filter notScheduled (pod_Conditions pod)) as Hin
      by (rewrite Hf; apply list_elem_of_here).
    apply list_elem_of_filter in Hin as [Hns Hin]. by destruct (Hnone cond Hin).
Qed.

Lemma checkSchedulingStatus_records_every_listed_pod_witness :
  ∃ status',
    checkSchedulingStatus (fake.NewKubeClient scenario.pending) zeroScheduling []
      = ((status', None),
         [fake.ListPods "" {| LabelSelector := ""; FieldSelector := "status.phase=Pending" |}]) ∧
    PendingPods status' =
      [ {| psi_Pod := "web-0"; psi_Namespace := "default"; psi_Reason := "" |};
        {| psi_Pod := "db-0"; psi_Namespace := "default";
           psi_Reason := "0/3 nodes are available: 3 Insufficient cpu." |} ].
Proof.
  destruct (checkSchedulingStatus_records_every_listed_pod
              (fake.NewKubeClient scenario.pending) [scenario.web0; scenario.db0]
              zeroScheduling [] _ eq_refl)
    as (status' & Hrun & Hpending & _).
  exists status'. split; [exact Hrun|exact Hpending].
Defined.

(** C5, the claim as stated fails: [web-0] is in phase [Pending] and has
    no "not scheduled" condition, and the check records an issue for
    it. *)
Lemma checkSchedulingStatus_issue_without_condition :
  let status' :=
    (checkSchedulingStatus (fake.NewKubeClient scenario.pending) zeroScheduling []).1.1 in
  pod_Phase scenario.web0 = PodPending ∧
  (∀ cond, cond ∈ pod_Conditions scenario.web0 → ¬ notScheduled cond) ∧
  ¬ (∀ issue, issue ∈ PendingPods status' →
       ∃ pod cond, pod ∈ [scenario.web0; scenario.db0] ∧ psi_Pod issue = pod_Name pod ∧
                   cond ∈ pod_Conditions pod ∧ notScheduled cond).
Proof.
  simpl. split; [done|]. split.
  - intros cond Hin [_ Hs]. apply list_elem_of_singleton in Hin. by subst cond.
  - intros Hclaim.
    destruct (Hclaim {| psi_Pod := "web-0"; psi_Namespace := "default"; psi_Reason := "" |})
      as (pod & cond & Hpod & Hname & Hin & _ & Hs).
    { vm_compute. apply list_elem_of_here. }
    apply elem_of_cons in Hpod as [->|Hpod].
    + apply list_elem_of_singleton in Hin. by subst cond.
    + apply list_elem_of_singleton in Hpod. subst pod. discriminate Hname.
Qed.

(** ** NodeReadiness *)

Section NodeReadiness.
Context {W : Type} (k : KubeClient W).

Lemma readyLoop_first node : readyLoop (node_Conditions node) false = isReady node.
Proof.
  unfold isReady. induction (node_Conditions node) as [|c conds IH]; [done|].
  simpl. rewrite filter_cons.
  destruct (decide (nc_Type c = NodeReady)) as [Ht|Ht].
  - by rewrite (bool_decide_eq_true_2 _ Ht).
  - by rewrite (bool_decide_eq_false_2 _ Ht).
Qed.

Lemma bootstrapLoop node conds status :
  foldl (λ status condition,
           if bool_decide (nc_Status condition = ConditionFalse)
           then set_BootstrapIssues
                  (BootstrapIssues status ++
                     ["Node " +:+ node_Name node +:+ ": " +:+ nc_Type condition +:+
                      " - " +:+ nc_Message condition]) status
           else status) status conds
  = set_BootstrapIssues
      (BootstrapIssues status ++
         (bootstrapIssue node <$> filter (λ c, nc_Status c = ConditionFalse) conds)) status.
Proof.
  revert status. induction conds as [|c conds IH]; intros status; simpl.
  - rewrite app_nil_r. by destruct status.
  - rewrite IH, filter_cons.
    destruct (decide (nc_Status c = ConditionFalse)) as [Hs|Hs].
    + rewrite (bool_decide_eq_true_2 _ Hs). unfold set_BootstrapIssues; simpl.
      by rewrite <- app_assoc.
    + by rewrite (bool_decide_eq_false_2 _ Hs).
Qed.

Lemma checkNodeStatus_loop nodes status :
  foldl (λ status node,
           let isReady := readyLoop (node_Conditions node) false in
           if negb isReady then
             let status := set_NotReady (NotReady status ++ [node_Name node]) status in
             foldl (λ status condition,
               if bool_decide (nc_Status condition = ConditionFalse)
               then set_BootstrapIssues
                      (BootstrapIssues status ++
                         ["Node " +:+ node_Name node +:+ ": " +:+ nc_Type condition +:+
                          " - " +:+ nc_Message condition]) status
               else status) status (node_Conditions node)
           else status) status nodes
  = {| NotReady :=
         NotReady status ++ (node_Name <$> filter (λ node, isReady node = false) nodes);
       ASGIssues := ASGIssues status;
       BootstrapIssues :=
         BootstrapIssues status ++
           (filter (λ node, isReady node = false) nodes ≫= bootstrapIssues) |}.
Proof.
  revert status. induction nodes as [|node nodes IH]; intros status; simpl.
  - rewrite !app_nil_r. by destruct status.
  - rewrite IH, readyLoop_first, filter_cons. clear IH.
    destruct (decide (isReady node = false)) as [Hready|Hready].
    + rewrite Hready. simpl. rewrite bootstrapLoop. simpl.
      rewrite <- !app_assoc. reflexivity.
    + apply not_false_is_true in Hready. rewrite Hready. reflexivity.
Qed.

End NodeReadiness.

(** C7 (as amended).  When the node listing succeeds, [checkNodeStatus]
    adds the name of a node to [NotReady] exactly when the first condition
    of type [Ready] of the node is missing or has a status other than
    [True]; and for such a node it records one bootstrap issue
    ["Node <name>: <type> - <message>"] for each condition of the node
    with status [False], the [Ready] condition included, and for no
    other.  The nodes are treated in listing order and [ASGIssues] is
    left as it was. *)
Theorem checkNodeStatus_not_ready_and_bootstrap
    {W} (k : KubeClient W) (nodes : list Node) (status : NodeStatus) (w w' : W) :
  Nodes_List (Clientset k) noOptions w = ((nodes, None), w') →
  ∃ status',
    checkNodeStatus k status w = ((status', None), w') ∧
    NotReady status' =
      NotReady status ++ (node_Name <$> filter (λ node, isReady node = false) nodes) ∧
    BootstrapIssues status' =
      BootstrapIssues status ++
        (filter (λ node, isReady node = false) nodes ≫= bootstrapIssues) ∧
    ASGIssues status' = ASGIssues status.
Proof.
  intros Hlist. eexists. split.
  - unfold checkNodeStatus, mbind, M_bind, bind. rewrite Hlist. simpl.
    by rewrite checkNodeStatus_loop.
  - done.
Qed.

Lemma checkNodeStatus_not_ready_and_bootstrap_witness :
  ∃ status',
    checkNodeStatus (fake.NewKubeClient scenario.down) zeroNodes []
      = ((status', None), [fake.ListNodes]) ∧
    NotReady status' = ["n1"; "n2"] ∧
    BootstrapIssues status' =
      [ "Node n1: MemoryPressure - kubelet has sufficient memory available";
        "Node n1: Ready - kubelet stopped posting node status" ] ∧
    ASGIssues status' = [].
Proof.
  destruct (checkNodeStatus_not_ready_and_bootstrap
              (fake.NewKubeClient scenario.down) scenario.downNodes zeroNodes [] _ eq_refl)
    as (status' & Hrun & Hnot & Hboot & Hasg).
  exists status'. split; [exact Hrun|]. split; [exact Hnot|]. split; [exact Hboot|exact Hasg].
Defined.

(** C7, the claim as stated fails on both counts: the [Ready] condition of
    [n1], which reports [False], is recorded as a bootstrap issue although
    the claim records only conditions other than [Ready]; and [n2] is
    added to [NotReady] although it has a [Ready] condition with status
    [True]. *)
Lemma checkNodeStatus_records_ready_condition :
  let status' := (checkNodeStatus (fake.NewKubeClient scenario.down) zeroNodes []).1.1 in
  "Node n1: Ready - kubelet stopped posting node status" ∈ BootstrapIssues status' ∧
  "n2" ∈ NotReady status' ∧
  ∃ node c, node ∈ scenario.downNodes ∧ node_Name node = "n2" ∧
            c ∈ node_Conditions node ∧
            nc_Type c = NodeReady ∧ nc_Status c = ConditionTrue.
Proof.
  simpl. split; [vm_compute; apply list_elem_of_further, list_elem_of_here|].
  split; [vm_compute; apply list_elem_of_further, list_elem_of_here|].
  eexists _, scenario.ready. split; [apply list_elem_of_further, list_elem_of_here|].
  split; [done|]. split; [apply list_elem_of_further, list_elem_of_here|done].
Qed.

(** ** Authentication: the web identity token of a pod *)

Section WebIdentity.
Context {W : Type} (k : KubeClient W).

Lemma sourcesLoop_true sources flag :
  sourcesLoop sources flag = true ↔
  flag = true ∨ ∃ source, source ∈ sources ∧ is_Some (ServiceAccountToken source).
Proof.
  induction sources as [|source sources IH]; simpl.
  - split; [by left|]. intros [?|(? & Hin & _)]; [done|]. by apply elem_of_nil in Hin.
  - destruct (ServiceAccountToken source) as [token|] eqn:Htoken.
    + split; [|done]. intros _. right. exists source.
      split; [apply list_elem_of_here|by rewrite Htoken].
    + rewrite IH. split.
      * intros [?|(s & Hin & Hs)]; [by left|]. right. exists s.
        split; [by apply list_elem_of_further|done].
      * intros [?|(s & Hin & Hs)]; [by left|].
        apply elem_of_cons in Hin as [->|Hin].
        -- rewrite Htoken in Hs. by destruct Hs.
        -- right. by exists s.
Qed.

Lemma volumesLoop_true volumes flag :
  foldl (λ hasTokenVolume volume,
           match Projected volume with
           | Some projected => sourcesLoop (Sources projected) hasTokenVolume
           | None => hasTokenVolume
           end) flag volumes = true ↔
  flag = true ∨
  ∃ volume projected source,
    volume ∈ volumes ∧ Projected volume = Some projected ∧
    source ∈ Sources projected ∧ is_Some (ServiceAccountToken source).
Proof.
  revert flag. induction volumes as [|volume volumes IH]; intros flag; simpl.
  - split; [by left|]. intros [?|(? & ? & ? & Hin & _)]; [done|].
    by apply elem_of_nil in Hin.
  - rewrite IH. destruct (Projected volume) as [projected|] eqn:Hproj.
    + rewrite sourcesLoop_true. split.
      * intros [[?|(s & Hin & Hs)]|(v & p & s & Hv & Hp & Hin & Hs)].
        -- by left.
        -- right. exists volume, projected, s. by rewrite elem_of_cons; auto.
        -- right. exists v, p, s. by rewrite elem_of_cons; auto.
      * intros [?|(v & p & s & Hv & Hp & Hin & Hs)]; [by left; left|].
        apply elem_of_cons in Hv as [->|Hv].
        -- rewrite Hproj in Hp. injection Hp as <-. left. right. by exists s.
        -- right. by exists v, p, s.
    + split.
      * intros [?|(v & p & s & Hv & Hp & Hin & Hs)]; [by left|].
        right. exists v, p, s. by rewrite elem_of_cons; auto.
      * intros [?|(v & p & s & Hv & Hp & Hin & Hs)]; [by left|].
        apply elem_of_cons in Hv as [->|Hv].
        -- by rewrite Hproj in Hp.
        -- right. by exists v, p, s.
Qed.

End WebIdentity.

(** C9.  When the pod is read, [ValidatePodWebIdentityToken] returns an
    error exactly when no volume of the pod is a projected volume with a
    service-account-token source.  In particular a pod that sets
    [AWS_ROLE_ARN] and has no such volume gets the error, and a pod that
    has one gets none. *)
Theorem ValidatePodWebIdentityToken_error_iff_no_token_volume
    {W} (k : KubeClient W) (namespace podName : string) (pod : Pod) (w w' : W) :
  Pods_Get (Clientset k) namespace podName w = ((pod, None), w') →
  ∃ err,
    ValidatePodWebIdentityToken k namespace podName w = (err, w') ∧
    (is_Some err ↔ ¬ hasTokenVolume pod) ∧
    (hasEnv "AWS_ROLE_ARN" pod → ¬ hasTokenVolume pod →
       err = Some (New "pod does not have service account token volume mounted")) ∧
    (hasTokenVolume pod → err = None).
Proof.
  intros Hget.
  unfold ValidatePodWebIdentityToken, mbind, M_bind, bind. rewrite Hget. simpl.
  pose proof (volumesLoop_true (Volumes (pod_Spec pod)) false) as Hloop.
  fold (hasTokenVolume pod) in Hloop.
  destruct (foldl _ false (Volumes (pod_Spec pod))) eqn:Hflag; simpl;
    eexists; (split; [reflexivity|]).
  - assert (hasTokenVolume pod) as Hhas.
    { destruct Hloop as [Hloop _]. by destruct (Hloop eq_refl). }
    split; [|split]; [|done..].
    split; [by intros [? ?]|done].
  - assert (¬ hasTokenVolume pod) as Hnot.
    { intros Hhas. destruct Hloop as [_ Hloop]. by specialize (Hloop (or_intror Hhas)). }
    split; [|split]; [|done..].
    split; [done|]. intros _. by eexists.
Qed.

Lemma ValidatePodWebIdentityToken_error_iff_no_token_volume_witness :
  ValidatePodWebIdentityToken (fake.NewKubeClient scenario.irsa) "default" "missing" []
    = (Some (New "pod does not have service account token volume mounted"),
       [fake.GetPod "default" "missing"]) ∧
  ValidatePodWebIdentityToken (fake.NewKubeClient scenario.irsa) "default" "valid" []
    = (None, [fake.GetPod "default" "valid"]).
Proof.
  split.
  - destruct (ValidatePodWebIdentityToken_error_iff_no_token_volume
                (fake.NewKubeClient scenario.irsa) "default" "missing" scenario.missingPod
                [] _ eq_refl) as (err & Hrun & _ & Hmissing & _).
    rewrite Hrun. f_equal. apply Hmissing.
    + exists scenario.irsaContainer, {| env_Name := "AWS_ROLE_ARN";
        env_Value := "arn:aws:iam::123456789012:role/test-role" |}.
      split; [apply list_elem_of_here|]. split; [apply list_elem_of_here|done].
    + intros (volume & _ & _ & Hin & _). by apply elem_of_nil in Hin.
  - destruct (ValidatePodWebIdentityToken_error_iff_no_token_volume
                (fake.NewKubeClient scenario.irsa) "default" "valid" scenario.validPod
                [] _ eq_refl) as (err & Hrun & _ & _ & Hvalid).
    rewrite Hrun. f_equal. apply Hvalid.
    eexists _, _, _. split; [apply list_elem_of_here|]. split; [reflexivity|].
    split; [apply list_elem_of_here|]. by eexists.
Defined.

(** ** The aggregation: [CheckClusterHealth] *)

Section Aggregation.
Context {W : Type} (k : KubeClient W).

(** A check that returned an error is the last one executed. *)
Lemma executed_error_length (cs : list (Check W)) status w i status' e w' :
  executed cs status w !! i = Some (status', Some e, w') →
  length (executed cs status w) = S i.
Proof.
  revert status w i. induction cs as [|c cs IH]; intros status w i; simpl; [done|].
  destruct (c status w) as [[s1 [e1|]] w1]; simpl.
  - destruct i as [|i]; [done|]. by destruct i.
  - destruct i as [|i]; simpl; [done|]. intros Hi. f_equal. by eapply IH.
Qed.

Lemma executed_error_last (cs : list (Check W)) status w status' e w' :
  (status', Some e, w') ∈ executed cs status w →
  last (executed cs status w) = Some (status', Some e, w').
Proof.
  intros Hin. apply list_elem_of_lookup in Hin as [i Hi].
  rewrite last_lookup, (executed_error_length _ _ _ _ _ _ _ Hi). exact Hi.
Qed.

Lemma executed_length (cs : list (Check W)) status w :
  (length (executed cs status w) ≤ length cs)%nat.
Proof.
  revert status w. induction cs as [|c cs IH]; intros status w; simpl; [done|].
  destruct (c status w) as [[s1 [e1|]] w1]; simpl; [lia|].
  specialize (IH s1 w1). lia.
Qed.

(** [CheckClusterHealth] returns what the last executed check decides:
    its error and no status, or its status when it is the eighth check
    and returned no error. *)
Lemma CheckClusterHealth_last w :
  match last (executed (checks k) newStatus w) with
  | Some (status, Some e, w') => CheckClusterHealth k w = ((None, Some e), w')
  | Some (status, None, w') =>
      CheckClusterHealth k w = ((Some status, None), w') ∧
      length (executed (checks k) newStatus w) = 8%nat ∧
      Forall (λ r, r.1.2 = None) (executed (checks k) newStatus w)
  | None => False
  end.
Proof.
  unfold CheckClusterHealth, checks, executed, onField, mbind, M_bind, bind, mret, M_ret, ret.
  destruct (checkVersionMismatch k newStatus w) as [[s1 [e1|]] w1]; simpl; [done|].
  destruct (checkDeprecatedAPIs k s1 w1) as [[s2 [e2|]] w2]; simpl; [done|].
  destruct (checkLoggingStatus k s2 w2) as [[s3 [e3|]] w3]; simpl; [done|].
  destruct (checkNetworkingStatus k (Networking s3) w3) as [[s4 [e4|]] w4]; simpl; [done|].
  destruct (checkLoadBalancerStatus k _ w4) as [[s5 [e5|]] w5]; simpl; [done|].
  destruct (checkSchedulingStatus k _ w5) as [[s6 [e6|]] w6]; simpl; [done|].
  destruct (checkAuthStatus k _ w6) as [[s7 [e7|]] w7]; simpl; [done|].
  destruct (checkNodeStatus k _ w7) as [[s8 [e8|]] w8]; simpl; [done|].
  split; [done|]. split; [done|]. repeat constructor.
Qed.

Lemma CheckClusterHealth_error_last w status e w' :
  (status, Some e, w') ∈ executed (checks k) newStatus w →
  CheckClusterHealth k w = ((None, Some e), w').
Proof.
  intros Hin. apply executed_error_last in Hin.
  pose proof (CheckClusterHealth_last w) as Hlast.
  by rewrite Hin in Hlast.
Qed.

(** A property of the status that every check preserves holds of every
    status that [CheckClusterHealth] returns. *)
Lemma executed_invariant (P : ClusterHealthStatus → Prop) (cs : list (Check W)) status w :
  (∀ c s w0, c ∈ cs → P s → P (c s w0).1.1) →
  P status →
  Forall (λ r, P r.1.1) (executed cs status w).
Proof.
  revert status w. induction cs as [|c cs IH]; intros status w Hcs HP; simpl.
  - constructor.
  - pose proof (Hcs c status w (list_elem_of_here _ _) HP) as HP1.
    destruct (c status w) as [[s1 [e1|]] w1]; simpl in *.
    + by repeat constructor.
    + constructor; [done|]. apply IH; [|done].
      intros c' s' w0 Hin. apply Hcs. by apply list_elem_of_further.
Qed.

Lemma CheckClusterHealth_invariant (P : ClusterHealthStatus → Prop) w status :
  (∀ c s w0, c ∈ checks k → P s → P (c s w0).1.1) →
  P newStatus →
  (CheckClusterHealth k w).1.1 = Some status → P status.
Proof.
  intros Hcs HP0 Hret.
  pose proof (executed_invariant P (checks k) newStatus w Hcs HP0) as Hall.
  pose proof (CheckClusterHealth_last w) as Hlast.
  destruct (last (executed (checks k) newStatus w)) as [[[s [e|]] w']|] eqn:Hl; [| |done].
  - rewrite Hlast in Hret. discriminate.
  - destruct Hlast as [Hrun _]. rewrite Hrun in Hret. simpl in Hret.
    injection Hret as <-.
    apply last_Some_elem_of in Hl.
    by apply (proj1 (Forall_forall _ _) Hall) in Hl.
Qed.

End Aggregation.

(** C10.  Whenever a check that [CheckClusterHealth] executes returns an
    error, [CheckClusterHealth] returns the nil status together with that
    very error: the status the checks had filled so far is not handed to
    the caller. *)
Theorem CheckClusterHealth_error_gives_nil_status
    {W} (k : KubeClient W) (w : W) (status : ClusterHealthStatus) (e : error) (w' : W) :
  (status, Some e, w') ∈ executed (checks k) newStatus w →
  CheckClusterHealth k w = ((None, Some e), w').
Proof. apply CheckClusterHealth_error_last. Qed.

Lemma CheckClusterHealth_error_gives_nil_status_witness :
  CheckClusterHealth (fake.NewKubeClient scenario.networkingDenied) []
    = ((None, Some scenario.denied),
       [ fake.ListNodes; fake.ListDeployments "";
         fake.ListPods "" {| LabelSelector := "app=fluent-bit"; FieldSelector := "" |};
         fake.ListPods "" {| LabelSelector := "app=cloudwatch-agent"; FieldSelector := "" |};
         fake.ListPods "" {| LabelSelector := "k8s-app=metrics-server"; FieldSelector := "" |};
         fake.ListPods "kube-system"
           {| LabelSelector := "k8s-app=aws-node"; FieldSelector := "" |} ]).
Proof.
  eapply CheckClusterHealth_error_gives_nil_status.
  apply (list_elem_of_lookup_2 _ 3%nat). reflexivity.
Defined.

(** C1 (as amended).  A failure of the check of one category ends the
    run: the checks of the later categories are not executed, and
    [CheckClusterHealth] returns the error of the failed check and no
    status.  When no executed check fails, all eight checks are executed
    and [CheckClusterHealth] returns the status that the last one
    leaves. *)
Theorem CheckClusterHealth_aborts_on_failed_check {W} (k : KubeClient W) (w : W) :
  (∀ i status e w',
     executed (checks k) newStatus w !! i = Some (status, Some e, w') →
     CheckClusterHealth k w = ((None, Some e), w') ∧
     length (executed (checks k) newStatus w) = S i) ∧
  (Forall (λ r, r.1.2 = None) (executed (checks k) newStatus w) →
   ∃ status w',
     CheckClusterHealth k w = ((Some status, None), w') ∧
     length (executed (checks k) newStatus w) = 8%nat ∧
     last (executed (checks k) newStatus w) = Some (status, None, w')).
Proof.
  split.
  - intros i status e w' Hi. split.
    + eapply CheckClusterHealth_error_last. by eapply list_elem_of_lookup_2.
    + by eapply executed_error_length.
  - intros Hok. pose proof (CheckClusterHealth_last k w) as Hlast.
    destruct (last (executed (checks k) newStatus w)) as [[[s [e|]] w']|] eqn:Hl; [| |done].
    + apply last_Some_elem_of in Hl.
      apply (proj1 (Forall_forall _ _) Hok) in Hl. discriminate Hl.
    + destruct Hlast as (Hrun & Hlen & _). by exists s, w'.
Qed.

Lemma CheckClusterHealth_aborts_on_failed_check_witness :
  CheckClusterHealth (fake.NewKubeClient scenario.networkingDenied) []
    = ((None, Some scenario.denied),
       [ fake.ListNodes; fake.ListDeployments "";
         fake.ListPods "" {| LabelSelector := "app=fluent-bit"; FieldSelector := "" |};
         fake.ListPods "" {| LabelSelector := "app=cloudwatch-agent"; FieldSelector := "" |};
         fake.ListPods "" {| LabelSelector := "k8s-app=metrics-server"; FieldSelector := "" |};
         fake.ListPods "kube-system"
           {| LabelSelector := "k8s-app=aws-node"; FieldSelector := "" |} ]) ∧
  length (executed (checks (fake.NewKubeClient scenario.networkingDenied)) newStatus [])
    = 4%nat.
Proof.
  eapply (proj1 (CheckClusterHealth_aborts_on_failed_check
                   (fake.NewKubeClient scenario.networkingDenied) []) 3%nat).
  reflexivity.
Defined.

(** C1, the claim as stated fails: when only the accessor of the
    Networking check is denied, the run returns no status at all, and the
    checks of the categories after Networking are never executed (no
    service, ingress, pending-pod, service-account or second node listing
    is requested), although the check of the nodes, run on its own,
    succeeds and finds the nodes that are not ready. *)
Lemma CheckClusterHealth_networking_failure_aborts_run :
  let k := fake.NewKubeClient scenario.networkingDenied in
  (CheckClusterHealth k []).1 = (None, Some scenario.denied) ∧
  (CheckClusterHealth k []).2 =
    [ fake.ListNodes; fake.ListDeployments "";
      fake.ListPods "" {| LabelSelector := "app=fluent-bit"; FieldSelector := "" |};
      fake.ListPods "" {| LabelSelector := "app=cloudwatch-agent"; FieldSelector := "" |};
      fake.ListPods "" {| LabelSelector := "k8s-app=metrics-server"; FieldSelector := "" |};
      fake.ListPods "kube-system"
        {| LabelSelector := "k8s-app=aws-node"; FieldSelector := "" |} ] ∧
  (checkNodeStatus k zeroNodes []).1.2 = None ∧
  NotReady (checkNodeStatus k zeroNodes []).1.1 = ["n1"; "n2"].
Proof. by vm_compute. Qed.

(** ** What the checks leave untouched *)

Section Frame.
Context {W : Type} (k : KubeClient W).

Lemma foldl_invariant {A B} (P : B → Prop) (f : B → A → B) (l : list A) (b : B) :
  P b → (∀ b x, P b → P (f b x)) → P (foldl f b l).
Proof.
  intros Hb Hf. revert b Hb. induction l as [|x l IH]; intros b Hb; simpl; [done|].
  apply IH. by apply Hf.
Qed.

(** [checkNetworkingStatus] writes the two lists of pods only. *)
Lemma checkNetworkingStatus_booleans status w :
  ExternalAccess (checkNetworkingStatus k status w).1.1 = ExternalAccess status ∧
  DNSResolution (checkNetworkingStatus k status w).1.1 = DNSResolution status.
Proof.
  unfold checkNetworkingStatus, mbind, M_bind, bind.
  destruct (Pods_List _ _ _ w) as [[cniPods [e|]] w1]; simpl; [done|].
  set (status1 := foldl _ status cniPods).
  assert (ExternalAccess status1 = ExternalAccess status ∧
          DNSResolution status1 = DNSResolution status) as [H1 H2].
  { apply (foldl_invariant (λ s, ExternalAccess s = ExternalAccess status ∧
                                 DNSResolution s = DNSResolution status)); [done|].
    by intros s pod [? ?]. }
  destruct (Pods_List _ _ _ w1) as [[dnsPods [e|]] w2]; simpl; [done|].
  apply (foldl_invariant (λ s, ExternalAccess s = ExternalAccess status ∧
                               DNSResolution s = DNSResolution status)); [done|].
  by intros s pod [? ?].
Qed.

(** The checks of the other categories leave the scheduling and the
    networking sub-status as they were. *)
Lemma checkVersionMismatch_frame status w :
  Scheduling (checkVersionMismatch k status w).1.1 = Scheduling status ∧
  Networking (checkVersionMismatch k status w).1.1 = Networking status.
Proof.
  unfold checkVersionMismatch, mbind, M_bind, bind.
  destruct (Nodes_List _ _ w) as [[nodes [e|]] w1]; simpl; [done|].
  apply (foldl_invariant (λ s, Scheduling s = Scheduling status ∧
                               Networking s = Networking status)); [done|].
  by intros s node [? ?].
Qed.

Lemma checkDeprecatedAPIs_frame status w :
  Scheduling (checkDeprecatedAPIs k status w).1.1 = Scheduling status ∧
  Networking (checkDeprecatedAPIs k status w).1.1 = Networking status.
Proof.
  unfold checkDeprecatedAPIs, mbind, M_bind, bind.
  destruct (Deployments_List _ _ _ w) as [[deployments [e|]] w1]; simpl; [done|].
  apply (foldl_invariant (λ s, Scheduling s = Scheduling status ∧
                               Networking s = Networking status)); [done|].
  intros s deploy [? ?]. by destruct (index _ _).
Qed.

Lemma checkLoggingStatus_frame status w :
  Scheduling (checkLoggingStatus k status w).1.1 = Scheduling status ∧
  Networking (checkLoggingStatus k status w).1.1 = Networking status.
Proof.
  unfold checkLoggingStatus, mbind, M_bind, bind.
  destruct (Pods_List _ _ _ w) as [[pods1 err1] w1]; simpl.
  destruct (fatal err1); simpl; [done|].
  set (status1 := foldl _ status pods1).
  assert (Scheduling status1 = Scheduling status ∧
          Networking status1 = Networking status) as [H1 H2].
  { apply (foldl_invariant (λ s, Scheduling s = Scheduling status ∧
                                 Networking s = Networking status)); [done|].
    by intros s pod [? ?]. }
  destruct (Pods_List _ _ _ w1) as [[pods2 err2] w2]; simpl.
  destruct (fatal err2); simpl; [done|].
  set (status2 := foldl _ status1 pods2).
  assert (Scheduling status2 = Scheduling status ∧
          Networking status2 = Networking status) as [H3 H4].
  { apply (foldl_invariant (λ s, Scheduling s = Scheduling status ∧
                                 Networking s = Networking status)); [done|].
    by intros s pod [? ?]. }
  destruct (Pods_List _ _ _ w2) as [[pods3 err3] w3]; simpl.
  destruct (fatal err3); simpl; [done|].
  apply (foldl_invariant (λ s, Scheduling s = Scheduling status ∧
                               Networking s = Networking status)); [done|].
  by intros s pod [? ?].
Qed.

(** No check writes [ResourceIssues], [ExternalAccess] or
    [DNSResolution]. *)
Lemma checks_frame (c : Check W) status w :
  c ∈ checks k →
  ResourceIssues (Scheduling (c status w).1.1) = ResourceIssues (Scheduling status) ∧
  ExternalAccess (Networking (c status w).1.1) = ExternalAccess (Networking status) ∧
  DNSResolution (Networking (c status w).1.1) = DNSResolution (Networking status).
Proof.
  unfold checks. intros Hc.
  repeat (apply elem_of_cons in Hc as [->|Hc]); [..|by apply elem_of_nil in Hc].
  - by destruct (checkVersionMismatch_frame status w) as [-> ->].
  - by destruct (checkDeprecatedAPIs_frame status w) as [-> ->].
  - by destruct (checkLoggingStatus_frame status w) as [-> ->].
  - pose proof (checkNetworkingStatus_booleans (Networking status) w) as [H1 H2].
    unfold onField, mbind, M_bind, bind.
    by destruct (checkNetworkingStatus k (Networking status) w) as [[sub err] w1].
  - unfold onField, mbind, M_bind, bind.
    by destruct (checkLoadBalancerStatus k (LoadBalancer status) w) as [[sub err] w1].
  - pose proof (checkSchedulingStatus_ResourceIssues k (Scheduling status) w) as H1.
    unfold onField, mbind, M_bind, bind.
    by destruct (checkSchedulingStatus k (Scheduling status) w) as [[sub err] w1].
  - unfold onField, mbind, M_bind, bind.
    by destruct (checkAuthStatus k (Auth status) w) as [[sub err] w1].
  - unfold onField, mbind, M_bind, bind.
    by destruct (checkNodeStatus k (Nodes status) w) as [[sub err] w1].
Qed.

Lemma CheckClusterHealth_frame status w :
  (CheckClusterHealth k w).1.1 = Some status →
  ResourceIssues (Scheduling status) = [] ∧
  ExternalAccess (Networking status) = false ∧
  DNSResolution (Networking status) = false.
Proof.
  apply (CheckClusterHealth_invariant k
           (λ s, ResourceIssues (Scheduling s) = [] ∧
                 ExternalAccess (Networking s) = false ∧
                 DNSResolution (Networking s) = false)); [|done].
  intros c s w0 Hc (H1 & H2 & H3).
  destruct (checks_frame c s w0 Hc) as (-> & -> & ->). done.
Qed.

End Frame.

(** ** Scheduling: resource utilization *)

Section Utilization.
Context {W : Type} (k : KubeClient W).




End Utilization.




(** ** Networking: the probes *)

(** C8 (as amended).  The Networking check only lists the CNI pods and
    the DNS pods: it performs no probe.  It leaves [ExternalAccess] and
    [DNSResolution] as they were, its result depends on the client through
    the pod listing alone, and both booleans are [false] in every status
    that [CheckClusterHealth] returns. *)
Theorem checkNetworkingStatus_makes_no_probe {W} (k : KubeClient W) (w : W) :
  (∀ status,
     ExternalAccess (checkNetworkingStatus k status w).1.1 = ExternalAccess status ∧
     DNSResolution (checkNetworkingStatus k status w).1.1 = DNSResolution status) ∧
  (∀ (k' : KubeClient W) status,
     Pods_List (Clientset k') = Pods_List (Clientset k) →
     checkNetworkingStatus k' status w = checkNetworkingStatus k status w) ∧
  (∀ status,
     (CheckClusterHealth k w).1.1 = Some status →
     ExternalAccess (Networking status) = false ∧
     DNSResolution (Networking status) = false).
Proof.
  split; [intros status; apply checkNetworkingStatus_booleans|]. split.
  - intros k' status Hsame. unfold checkNetworkingStatus. by rewrite Hsame.
  - intros status Hret. by destruct (CheckClusterHealth_frame k status w Hret) as (_ & ? & ?).
Qed.

(** C8, the claim as stated fails: on a cluster where the DNS probe of
    the package, [TestPodDNS], succeeds, the run creates no pod and the
    status it returns says that DNS resolution and external access do not
    work. *)
Lemma CheckClusterHealth_runs_no_probe :
  let k := fake.NewKubeClient fake.empty in
  (TestPodDNS k "default" "" "kubernetes.default.svc.cluster.local" []).1 = (true, None) ∧
  ∃ status actions,
    CheckClusterHealth k [] = ((Some status, None), actions) ∧
    DNSResolution (Networking status) = false ∧
    ExternalAccess (Networking status) = false ∧
    ∀ namespace name, fake.CreatePod namespace name ∉ actions.
Proof.
  simpl. split; [by vm_compute|].
  eexists _, _. split; [vm_compute; reflexivity|].
  split; [reflexivity|]. split; [reflexivity|].
  intros namespace name Hin.
  repeat (apply elem_of_cons in Hin as [Hin|Hin]; [discriminate Hin|]).
  by apply elem_of_nil in Hin.
Qed.

(** ** The health summary *)

(** The recommendations are printed once each at most, and in the order
    of their numbers. *)
Lemma recommendedActions_in_order (status : ClusterHealthStatus) :
  sublist (recommendedActions status)
    [ Println "1. Upgrade nodes to match control plane version";
      Println "2. Update applications using deprecated APIs";
      Println "3. Fix IRSA configuration issues";
      Println "4. Review and fix RBAC issues";
      Println "5. Investigate nodes in NotReady state";
      Println "6. Address pod scheduling issues";
      Println "7. Check LoadBalancer provisioning issues" ].
Proof.
  unfold recommendedActions.
  repeat match goal with
         | |- sublist ((if ?b then _ else _) ++ _) (_ :: _) =>
             destruct b; simpl; [apply sublist_skip_cons || constructor | apply sublist_cons]
         | |- sublist (if ?b then _ else _) _ => destruct b; repeat constructor
         end.
Qed.

(** Additions that stay below [2 ^ 63] do not wrap. *)
Lemma wrap64_small (z : Z) : 0 ≤ z < 2 ^ 63 → wrap64 z = z.
Proof. intros Hz. unfold wrap64. rewrite Z.mod_small; lia. Qed.

(** The two counters: [totalIssues] is the number of findings of the six
    counted lists, and the version mismatch is counted in [criticalIssues]
    alone. *)
Lemma printHealthSummary_counts (status : ClusterHealthStatus) :
  let findings :=
    len (DeprecatedAPIs status) + len (IRSAIssues (Auth status)) +
    len (RBACIssues (Auth status)) + len (NotReady (Nodes status)) +
    len (PendingPods (Scheduling status)) + len (PendingServices (LoadBalancer status)) in
  findings < 2 ^ 63 →
  totalIssues (printHealthSummary status) = findings ∧
  criticalIssues (printHealthSummary status) =
    (if 1 <? Z.of_nat (size (NodeVersions status)) then 1 else 0).
Proof.
  unfold printHealthSummary, add64, len; simpl. intros Hbound.
  split.
  - repeat match goal with
           | |- context [wrap64 ?z] =>
               lazymatch z with
               | context [wrap64 _] => fail
               | _ => rewrite (wrap64_small z) by lia
               end
           end.
    lia.
  - destruct (1 <? _); [by vm_compute|done].
Qed.

(** [criticalIssues ≤ totalIssues] fails exactly when version skew is the
    only finding. *)
Lemma printHealthSummary_critical_le_total_iff (status : ClusterHealthStatus) :
  let findings :=
    len (DeprecatedAPIs status) + len (IRSAIssues (Auth status)) +
    len (RBACIssues (Auth status)) + len (NotReady (Nodes status)) +
    len (PendingPods (Scheduling status)) + len (PendingServices (LoadBalancer status)) in
  findings < 2 ^ 63 →
  criticalIssues (printHealthSummary status) ≤ totalIssues (printHealthSummary status) ↔
  ¬ ((1 < size (NodeVersions status))%nat ∧ findings = 0).
Proof.
  intros findings Hbound.
  destruct (printHealthSummary_counts status Hbound) as [-> ->].
  fold findings. assert (0 ≤ findings) by (unfold findings, len; lia).
  destruct (1 <? Z.of_nat (size (NodeVersions status))) eqn:Hskew.
  - apply Z.ltb_lt in Hskew. split; [lia|]. intros Hnot.
    destruct (decide (findings = 0)) as [Hz|Hz]; [|lia].
    destruct Hnot. split; [lia|done].
  - apply Z.ltb_ge in Hskew. split; [lia|]. lia.
Qed.

(** C2, the failing input.  On the cluster of the version-skew scenario
    the run succeeds, and the summary of the status it returns counts one
    critical issue and no issue in total: [criticalIssues ≤ totalIssues]
    does not hold. *)
Theorem printHealthSummary_critical_exceeds_total :
  ∃ status actions,
    CheckClusterHealth (fake.NewKubeClient scenario.skew) [] = ((Some status, None), actions) ∧
    NodeVersions status = {[ "1.28" := ["n1"]; "1.29" := ["n2"; "n3"] ]} ∧
    criticalIssues (printHealthSummary status) = 1 ∧
    totalIssues (printHealthSummary status) = 0 ∧
    ¬ (criticalIssues (printHealthSummary status) ≤ totalIssues (printHealthSummary status)).
Proof.
  eexists _, _. split; [vm_compute; reflexivity|].
  split; [by vm_compute|]. split; [by vm_compute|]. split; [by vm_compute|].
  by vm_compute.
Qed.

(** C4, the failing input.  For the status of the version-skew scenario,
    in which version skew is the only finding, the summary counts the
    critical issue and then prints that no issue was found: the
    recommendation to upgrade the nodes is not printed. *)
Theorem printHealthSummary_skew_without_recommendation :
  (1 < size (NodeVersions scenario.skewStatus))%nat ∧
  criticalIssues (printHealthSummary scenario.skewStatus) = 1 ∧
  printed (printHealthSummary scenario.skewStatus) =
    [ Warning "Found %d critical issues that need immediate attention" [1];
      Success "No issues found - cluster is healthy!" ] ∧
  Println "1. Upgrade nodes to match control plane version"
    ∉ printed (printHealthSummary scenario.skewStatus).
Proof.
  split; [vm_compute; lia|]. split; [by vm_compute|].
  assert (printed (printHealthSummary scenario.skewStatus) =
    [ Warning "Found %d critical issues that need immediate attention" [1];
      Success "No issues found - cluster is healthy!" ]) as -> by (by vm_compute).
  split; [done|]. intros Hin.
  repeat (apply elem_of_cons in Hin as [Hin|Hin]; [discriminate Hin|]).
  by apply elem_of_nil in Hin.
Qed.

(** * Further properties of the checks *)

Section OtherChecks.
Context {W : Type} (k : KubeClient W).

Lemma checkDeprecatedAPIs_loop deployments status :
  foldl (λ status deploy,
           match index (meta_Annotations deploy) "deprecated.kubernetes.io" with
           | Some _ =>
               set_DeprecatedAPIs
                 (DeprecatedAPIs status ++
                    ["Deployment " +:+ meta_Namespace deploy +:+ "/" +:+
                       meta_Name deploy +:+ " uses deprecated APIs"]) status
           | None => status
           end) status deployments
  = set_DeprecatedAPIs
      (DeprecatedAPIs status ++ (deprecationFinding <$> filter deprecated deployments)) status.
Proof.
  revert status. induction deployments as [|deploy deployments IH]; intros status; simpl.
  - rewrite app_nil_r. by destruct status.
  - rewrite IH, filter_cons. clear IH.
    destruct (decide (deprecated deploy)) as [Hd|Hd].
    + destruct Hd as [v Hv]. rewrite Hv. unfold set_DeprecatedAPIs; simpl.
      by rewrite <- app_assoc.
    + destruct (index (meta_Annotations deploy) "deprecated.kubernetes.io") eqn:Hi; [|done].
      destruct Hd. unfold deprecated. rewrite Hi. by eexists.
Qed.

Lemma podStatus_loop (get : ClusterHealthStatus → list PodStatus)
    (set : list PodStatus → ClusterHealthStatus → ClusterHealthStatus) pods status :
  (∀ v s, get (set v s) = v) →
  (∀ v v' s, set v (set v' s) = set v s) →
  (∀ s, set (get s) s = s) →
  foldl (λ status pod, set (get status ++ [podStatus pod]) status) status pods
  = set (get status ++ (podStatus <$> pods)) status.
Proof.
  intros Hget Hset Hid. revert status.
  induction pods as [|pod pods IH]; intros status; simpl.
  - by rewrite app_nil_r, Hid.
  - rewrite IH, !Hget, !Hset. by rewrite <- app_assoc.
Qed.

End OtherChecks.

(** X1.  When the listing of the deployments succeeds,
    [checkDeprecatedAPIs] appends one finding
    ["Deployment <namespace>/<name> uses deprecated APIs"] for each
    deployment that carries the annotation [deprecated.kubernetes.io],
    whatever its value, in listing order, and changes nothing else; a
    deployment without annotations gives none. *)
Theorem checkDeprecatedAPIs_findings
    {W} (k : KubeClient W) (deployments : list ObjectMeta)
    (status : ClusterHealthStatus) (w w' : W) :
  Deployments_List (Clientset k) "" noOptions w = ((deployments, None), w') →
  checkDeprecatedAPIs k status w
  = ((set_DeprecatedAPIs
        (DeprecatedAPIs status ++ (deprecationFinding <$> filter deprecated deployments))
        status, None), w').
Proof.
  intros Hlist. unfold checkDeprecatedAPIs, mbind, M_bind, bind. rewrite Hlist. simpl.
  by rewrite checkDeprecatedAPIs_loop.
Qed.

Lemma fatal_tolerated (err : option error) : tolerated err → fatal err = None.
Proof.
  intros Htol. destruct err as [e|]; [|done]. simpl. by rewrite (Htol e eq_refl).
Qed.

Lemma len_zero {A} (l : list A) : (len l =? 0) = bool_decide (l = []).
Proof. by destruct l. Qed.

Lemma len_pos {A} (l : list A) : (0 <? len l) = negb (bool_decide (l = [])).
Proof. by destruct l. Qed.

(** X2.  [checkLoggingStatus] tolerates not-found errors: when each of
    its three pod listings returns no error or a not-found error, the
    check succeeds, and each of the three lists of the logging status is
    extended by the statuses of the pods its listing returned. *)
Theorem checkLoggingStatus_tolerates_not_found
    {W} (k : KubeClient W) (status : ClusterHealthStatus) (w w1 w2 w3 : W)
    (fluentBitPods cwPods metricsPods : list Pod) (err1 err2 err3 : option error) :
  Pods_List (Clientset k) "" {| LabelSelector := "app=fluent-bit"; FieldSelector := "" |} w
    = ((fluentBitPods, err1), w1) →
  Pods_List (Clientset k) "" {| LabelSelector := "app=cloudwatch-agent"; FieldSelector := "" |} w1
    = ((cwPods, err2), w2) →
  Pods_List (Clientset k) "" {| LabelSelector := "k8s-app=metrics-server"; FieldSelector := "" |} w2
    = ((metricsPods, err3), w3) →
  tolerated err1 → tolerated err2 → tolerated err3 →
  checkLoggingStatus k status w
  = ((set_Logging
        {| FluentBitStatus :=
             FluentBitStatus (Logging status) ++ (podStatus <$> fluentBitPods);
           CloudWatchStatus :=
             CloudWatchStatus (Logging status) ++ (podStatus <$> cwPods);
           MetricsServerStatus :=
             MetricsServerStatus (Logging status) ++ (podStatus <$> metricsPods) |}
        status, None), w3).
Proof.
  intros H1 H2 H3 Ht1 Ht2 Ht3.
  unfold checkLoggingStatus, mbind, M_bind, bind.
  rewrite H1; simpl. rewrite (fatal_tolerated _ Ht1).
  rewrite (podStatus_loop (λ s, FluentBitStatus (Logging s))
             (λ v s, set_Logging (set_FluentBitStatus v (Logging s)) s));
    [|done|done|by intros [? ? [] ? ? ? ? ?]].
  simpl. rewrite H2; simpl. rewrite (fatal_tolerated _ Ht2).
  rewrite (podStatus_loop (λ s, CloudWatchStatus (Logging s))
             (λ v s, set_Logging (set_CloudWatchStatus v (Logging s)) s));
    [|done|done|by intros [? ? [] ? ? ? ? ?]].
  simpl. rewrite H3; simpl. rewrite (fatal_tolerated _ Ht3).
  rewrite (podStatus_loop (λ s, MetricsServerStatus (Logging s))
             (λ v s, set_Logging (set_MetricsServerStatus v (Logging s)) s));
    [|done|done|by intros [? ? [] ? ? ? ? ?]].
  reflexivity.
Qed.

Lemma checkLoggingStatus_tolerates_not_found_witness :
  let missing := StatusError StatusReasonNotFound "the server could not find the resource" in
  let answers :=
    fake.with_pods
      (λ _ opts, if bool_decide (LabelSelector opts = "app=fluent-bit")
                 then ([], Some missing)
                 else if bool_decide (LabelSelector opts = "app=cloudwatch-agent")
                      then ([scenario.web0], None) else ([], None))
      fake.empty in
  (checkLoggingStatus (fake.NewKubeClient answers) newStatus []).1
  = (set_Logging
       {| FluentBitStatus := []; CloudWatchStatus := [podStatus scenario.web0];
          MetricsServerStatus := [] |} newStatus, None).
Proof.
  intros missing answers.
  rewrite (checkLoggingStatus_tolerates_not_found (fake.NewKubeClient answers) newStatus
             [] _ _ _ [] [scenario.web0] [] (Some missing) None None
             eq_refl eq_refl eq_refl).
  - reflexivity.
  - intros e He. injection He as <-. reflexivity.
  - intros e He. discriminate He.
  - intros e He. discriminate He.
Defined.

(** X3.  When the listing of the CNI pods succeeds,
    [checkNetworkingStatus] returns whatever error the listing of the DNS
    pods returns, and the statuses of the CNI pods are appended in either
    case: a failure of the second listing leaves the first half of the
    check in the status.  The DNS pods are appended only on success. *)
Theorem checkNetworkingStatus_keeps_partial_result
    {W} (k : KubeClient W) (status : NetworkingStatus) (w w1 w2 : W)
    (cniPods coreDNSPods : list Pod) (err : option error) :
  Pods_List (Clientset k) "kube-system"
    {| LabelSelector := "k8s-app=aws-node"; FieldSelector := "" |} w
    = ((cniPods, None), w1) →
  Pods_List (Clientset k) "kube-system"
    {| LabelSelector := "k8s-app=kube-dns"; FieldSelector := "" |} w1
    = ((coreDNSPods, err), w2) →
  checkNetworkingStatus k status w
  = (({| CNIStatus := CNIStatus status ++ (podStatus <$> cniPods);
         CoreDNSStatus :=
           CoreDNSStatus status ++
             (if err is None then podStatus <$> coreDNSPods else []);
         ExternalAccess := ExternalAccess status;
         DNSResolution := DNSResolution status |}, err), w2).
Proof.
  intros H1 H2. unfold checkNetworkingStatus, mbind, M_bind, bind.
  rewrite H1; simpl.
  assert (∀ pods s,
            foldl (λ status pod, set_CNIStatus (CNIStatus status ++ [podStatus pod]) status)
              s pods = set_CNIStatus (CNIStatus s ++ (podStatus <$> pods)) s) as ->.
  { induction pods as [|pod pods IH]; intros s; simpl.
    - rewrite app_nil_r. by destruct s.
    - rewrite IH. unfold set_CNIStatus; simpl. by rewrite <- app_assoc. }
  rewrite H2; simpl. destruct err as [e|]; simpl.
  - by rewrite app_nil_r.
  - assert (∀ pods s,
              foldl (λ status pod,
                       set_CoreDNSStatus (CoreDNSStatus status ++ [podStatus pod]) status)
                s pods = set_CoreDNSStatus (CoreDNSStatus s ++ (podStatus <$> pods)) s) as ->.
    { induction pods as [|pod pods IH]; intros s; simpl.
      - rewrite app_nil_r. by destruct s.
      - rewrite IH. unfold set_CoreDNSStatus; simpl. by rewrite <- app_assoc. }
    reflexivity.
Qed.

Lemma checkNetworkingStatus_keeps_partial_result_witness :
  let answers :=
    fake.with_pods
      (λ _ opts, if bool_decide (LabelSelector opts = "k8s-app=aws-node")
                 then ([scenario.web0], None) else ([scenario.db0], Some scenario.denied))
      fake.empty in
  (checkNetworkingStatus (fake.NewKubeClient answers) zeroNetworking []).1
  = ({| CNIStatus := [podStatus scenario.web0]; CoreDNSStatus := [];
        ExternalAccess := false; DNSResolution := false |}, Some scenario.denied).
Proof.
  intros answers.
  by rewrite (checkNetworkingStatus_keeps_partial_result (fake.NewKubeClient answers)
                zeroNetworking [] _ _ [scenario.web0] [scenario.db0] (Some scenario.denied)
                eq_refl eq_refl).
Defined.

(** X4.  When both listings succeed, [checkLoadBalancerStatus] appends
    the key [<namespace>/<name>] of exactly the services of type
    [LoadBalancer] that have no ingress point, and one status for every
    ingress, in listing order: [Ready] when the ingress has an ingress
    point and [Pending] otherwise, always without problems. *)
Theorem checkLoadBalancerStatus_findings
    {W} (k : KubeClient W) (status : LoadBalancerStatus) (w w1 w2 : W)
    (services : list Service) (ingresses : list Ingress) :
  Services_List (Clientset k) "" noOptions w = ((services, None), w1) →
  Ingresses_List (Clientset k) "" noOptions w1 = ((ingresses, None), w2) →
  checkLoadBalancerStatus k status w
  = (({| PendingServices :=
           PendingServices status ++ (serviceKey <$> filter pendingLoadBalancer services);
         IngressStatuses := IngressStatuses status ++ (ingressStatus <$> ingresses) |},
      None), w2).
Proof.
  intros H1 H2. unfold checkLoadBalancerStatus, mbind, M_bind, bind.
  rewrite H1; simpl.
  assert (∀ l s,
            foldl (λ status svc,
                     if bool_decide (svc_Type svc = ServiceTypeLoadBalancer)
                        && (len (svc_Ingress svc) =? 0)
                     then set_PendingServices
                            (PendingServices status ++
                               [svc_Namespace svc +:+ "/" +:+ svc_Name svc]) status
                     else status) s l
            = set_PendingServices
                (PendingServices s ++ (serviceKey <$> filter pendingLoadBalancer l)) s) as ->.
  { induction l as [|svc l IH]; intros s; simpl.
    - rewrite app_nil_r. by destruct s.
    - rewrite IH, filter_cons, len_zero. clear IH. unfold pendingLoadBalancer at 2.
      destruct (decide (svc_Type svc = ServiceTypeLoadBalancer)) as [Ht|Ht];
        destruct (decide (svc_Ingress svc = [])) as [Hi|Hi];
        rewrite ?(bool_decide_eq_true_2 _ Ht), ?(bool_decide_eq_false_2 _ Ht),
                ?(bool_decide_eq_true_2 _ Hi), ?(bool_decide_eq_false_2 _ Hi); simpl.
      + rewrite decide_True by done. unfold set_PendingServices; simpl.
        by rewrite <- app_assoc.
      + by rewrite decide_False by (by intros [_ ?]).
      + by rewrite decide_False by (by intros [? _]).
      + by rewrite decide_False by (by intros [? _]). }
  rewrite H2; simpl.
  assert (∀ l s,
            foldl (λ status ing,
                     let ingressStatus :=
                       {| is_Name := ing_Name ing; is_Namespace := ing_Namespace ing;
                          is_Status := "Pending"; is_Problems := [] |} in
                     let ingressStatus0 :=
                       if 0 <? len (ing_Ingress ing)
                       then {| is_Name := is_Name ingressStatus;
                               is_Namespace := is_Namespace ingressStatus;
                               is_Status := "Ready";
                               is_Problems := is_Problems ingressStatus |}
                       else ingressStatus in
                     set_IngressStatuses (IngressStatuses status ++ [ingressStatus0]) status)
              s l
            = set_IngressStatuses (IngressStatuses s ++ (ingressStatus <$> l)) s) as ->.
  { induction l as [|ing l IH]; intros s; simpl.
    - rewrite app_nil_r. by destruct s.
    - rewrite IH, len_pos. clear IH. unfold set_IngressStatuses; simpl.
      rewrite <- app_assoc. simpl. unfold ingressStatus at 2.
      destruct (decide (ing_Ingress ing = [])) as [Hi|Hi].
      + by rewrite (bool_decide_eq_true_2 _ Hi).
      + by rewrite (bool_decide_eq_false_2 _ Hi). }
  reflexivity.
Qed.

Lemma checkLoadBalancerStatus_findings_witness :
  let answers :=
    {| fake.nodes := ([], None); fake.deployments := ([], None);
       fake.pods := λ _ _, ([], None); fake.pod := fake.pod fake.empty;
       fake.logs := fake.logs fake.empty; fake.created := fake.created fake.empty;
       fake.events := fake.events fake.empty;
       fake.services :=
         ([ {| svc_Name := "web"; svc_Namespace := "shop";
               svc_Type := ServiceTypeLoadBalancer; svc_Ingress := [] |};
            {| svc_Name := "api"; svc_Namespace := "shop";
               svc_Type := ServiceTypeLoadBalancer; svc_Ingress := ["a1b2.elb.amazonaws.com"] |};
            {| svc_Name := "db"; svc_Namespace := "shop";
               svc_Type := "ClusterIP"; svc_Ingress := [] |} ], None);
       fake.ingresses :=
         ([ {| ing_Name := "front"; ing_Namespace := "shop"; ing_Ingress := [] |};
            {| ing_Name := "admin"; ing_Namespace := "shop";
               ing_Ingress := ["k8s-admin.elb.amazonaws.com"] |} ], None);
       fake.serviceAccounts := ([], None) |} in
  (checkLoadBalancerStatus (fake.NewKubeClient answers) zeroLoadBalancer []).1
  = ({| PendingServices := ["shop/web"];
        IngressStatuses :=
          [ {| is_Name := "front"; is_Namespace := "shop"; is_Status := "Pending";
               is_Problems := [] |};
            {| is_Name := "admin"; is_Namespace := "shop"; is_Status := "Ready";
               is_Problems := [] |} ] |}, None).
Proof.
  intros answers.
  by rewrite (checkLoadBalancerStatus_findings (fake.NewKubeClient answers)
                zeroLoadBalancer [] _ _ _ _ eq_refl eq_refl).
Defined.

Section AuthCheck.
Context {W : Type} (k : KubeClient W).

Lemma forM_invariant {A S} (P : S → Prop) (body : S → A → M W S) (l : list A) (s : S) (w : W) :
  P s → (∀ s x w, P s → P (body s x w).1) → P (forM body l s w).1.
Proof.
  intros Hs Hbody. revert s w Hs. induction l as [|x l IH]; intros s w Hs; simpl; [done|].
  unfold mbind, M_bind, bind. specialize (Hbody s x w Hs).
  destruct (body s x w) as [s1 w1]. by apply IH.
Qed.

Lemma forM_skip {A S} (body : S → A → M W S) (l : list A) (s : S) (w : W) :
  (∀ x, x ∈ l → ∀ s w, body s x w = (s, w)) → forM body l s w = (s, w).
Proof.
  induction l as [|x l IH]; intros Hskip; simpl; [done|].
  unfold mbind, M_bind, bind. rewrite (Hskip x (list_elem_of_here _ _)).
  apply IH. intros y Hy. apply Hskip. by apply list_elem_of_further.
Qed.

End AuthCheck.

Lemma checkAuthStatus_frame {W} (k : KubeClient W) (status : AuthStatus) (w : W) :
  (checkAuthStatus k status w).1.2
    = (ServiceAccounts_List (Clientset k) "" noOptions w).1.2 ∧
  RBACIssues (checkAuthStatus k status w).1.1 = RBACIssues status ∧
  IAMAuthIssues (checkAuthStatus k status w).1.1 = IAMAuthIssues status ∧
  IRSAIssues status `prefix_of` IRSAIssues (checkAuthStatus k status w).1.1.
Proof.
  unfold checkAuthStatus, mbind, M_bind, bind.
  destruct (ServiceAccounts_List _ _ _ w) as [[sa [e|]] w1]; simpl; [done|].
  set (P := λ s : AuthStatus,
         RBACIssues s = RBACIssues status ∧ IAMAuthIssues s = IAMAuthIssues status ∧
         IRSAIssues status `prefix_of` IRSAIssues s).
  match goal with
  | |- context [forM ?body sa status w1] =>
      pose proof (forM_invariant P body sa status w1) as Hinv
  end.
  match type of Hinv with
  | _ → _ → P (?run).1 => destruct run as [s2 w2]
  end.
  simpl in *. split; [done|]. apply Hinv; [done|]. clear.
  intros s account w (Hr & Hi & Hp).
  destruct (meta_Annotations account) as [annotations|]; [|done].
  destruct (annotations !! _) as [role|]; [|done].
  unfold mbind, M_bind, bind.
  destruct (Pods_List _ _ _ w) as [[pods [e|]] w1]; [done|].
  apply (forM_invariant P); [done|]. clear.
  intros s pod w (Hr & Hi & Hp).
  destruct (bool_decide _); [|done].
  unfold mbind, M_bind, bind, GetPodLogs, mbind, M_bind, bind.
  destruct (Pods_GetLogs _ _ _ _ w) as [[podLogs [e|]] w1]; [done|].
  destruct (rc_err podLogs); [done|]. simpl.
  destruct (_ || _); [|done]. simpl.
  split; [done|]. split; [done|]. by apply prefix_app_r.
Qed.


(** X5.  [checkAuthStatus] fails only when the listing of the service
    accounts fails, and then with that error: the errors of the pod
    listings and of the log streams are skipped.  It never writes
    [RBACIssues] or [IAMAuthIssues], and it only appends to
    [IRSAIssues]. *)
Theorem checkAuthStatus_fails_only_on_listing
    {W} (k : KubeClient W) (status : AuthStatus) (w : W) :
  (checkAuthStatus k status w).1.2
    = (ServiceAccounts_List (Clientset k) "" noOptions w).1.2 ∧
  RBACIssues (checkAuthStatus k status w).1.1 = RBACIssues status ∧
  IAMAuthIssues (checkAuthStatus k status w).1.1 = IAMAuthIssues status ∧
  IRSAIssues status `prefix_of` IRSAIssues (checkAuthStatus k status w).1.1.
Proof. apply checkAuthStatus_frame. Qed.

(** X6.  When no listed service account carries the role annotation
    [eks.amazonaws.com/role-arn], [checkAuthStatus] makes no request
    besides the listing and leaves the status as it was. *)
Theorem checkAuthStatus_without_annotated_account
    {W} (k : KubeClient W) (status : AuthStatus) (accounts : list ObjectMeta) (w w1 : W) :
  ServiceAccounts_List (Clientset k) "" noOptions w = ((accounts, None), w1) →
  (∀ account, account ∈ accounts → ¬ annotatedWithRole account) →
  checkAuthStatus k status w = ((status, None), w1).
Proof.
  intros Hlist Hnone. unfold checkAuthStatus, mbind, M_bind, bind.
  rewrite Hlist; simpl. rewrite forM_skip; [done|].
  intros account Hin s w0. specialize (Hnone account Hin).
  unfold annotatedWithRole, index in Hnone.
  destruct (meta_Annotations account) as [annotations|]; [|done]. simpl in Hnone.
  destruct (annotations !! _) as [role|]; [|done].
  destruct Hnone. by eexists.
Qed.

Lemma checkAuthStatus_without_annotated_account_witness :
  let account := {| meta_Name := "default"; meta_Namespace := "shop";
                    meta_Annotations := Some {[ "owner" := "team-a" ]} |} in
  let answers :=
    {| fake.nodes := ([], None); fake.deployments := ([], None);
       fake.pods := λ _ _, ([], Some scenario.denied); fake.pod := fake.pod fake.empty;
       fake.logs := fake.logs fake.empty; fake.created := fake.created fake.empty;
       fake.events := fake.events fake.empty;
       fake.services := ([], None); fake.ingresses := ([], None);
       fake.serviceAccounts := ([account], None) |} in
  checkAuthStatus (fake.NewKubeClient answers) zeroAuth []
  = ((zeroAuth, None), [fake.ListServiceAccounts ""]).
Proof.
  intros account answers.
  apply (checkAuthStatus_without_annotated_account (fake.NewKubeClient answers)
           zeroAuth [account] [] _ eq_refl).
  intros a Ha [v Hv]. apply list_elem_of_singleton in Ha. subst a.
  vm_compute in Hv. discriminate Hv.
Defined.

(** ** What no check ever reports *)

Section NeverReported.
Context {W : Type} (k : KubeClient W).

Lemma checkVersionMismatch_sets status w :
  ∃ v, (checkVersionMismatch k status w).1.1 = set_NodeVersions v status.
Proof.
  unfold checkVersionMismatch, mbind, M_bind, bind.
  destruct (Nodes_List _ _ w) as [[nodes [e|]] w1]; simpl.
  - exists (NodeVersions status). by destruct status.
  - rewrite checkVersionMismatch_loop. by eexists.
Qed.

Lemma checkDeprecatedAPIs_sets status w :
  ∃ v, (checkDeprecatedAPIs k status w).1.1 = set_DeprecatedAPIs v status.
Proof.
  unfold checkDeprecatedAPIs, mbind, M_bind, bind.
  destruct (Deployments_List _ _ _ w) as [[deployments [e|]] w1]; simpl.
  - exists (DeprecatedAPIs status). by destruct status.
  - rewrite checkDeprecatedAPIs_loop. by eexists.
Qed.

Lemma checkLoggingStatus_sets status w :
  ∃ v, (checkLoggingStatus k status w).1.1 = set_Logging v status.
Proof.
  assert (∃ v, status = set_Logging v status) as H0
    by (exists (Logging status); by destruct status).
  unfold checkLoggingStatus, mbind, M_bind, bind.
  destruct (Pods_List _ _ _ w) as [[pods1 err1] w1]; simpl.
  destruct (fatal err1); simpl; [done|].
  match goal with |- context [foldl ?g status pods1] =>
    assert (∃ v, foldl g status pods1 = set_Logging v status) as [v1 ->]
  end.
  { apply (foldl_invariant (λ s, ∃ v, s = set_Logging v status)); [done|].
    intros s' pod [v ->]. by eexists. }
  destruct (Pods_List _ _ _ w1) as [[pods2 err2] w2]; simpl.
  destruct (fatal err2); simpl; [by eexists|].
  match goal with |- context [foldl ?g (set_Logging v1 status) pods2] =>
    assert (∃ v, foldl g (set_Logging v1 status) pods2 = set_Logging v status) as [v2 ->]
  end.
  { apply (foldl_invariant (λ s, ∃ v, s = set_Logging v status)); [by eexists|].
    intros s' pod [v ->]. by eexists. }
  destruct (Pods_List _ _ _ w2) as [[pods3 err3] w3]; simpl.
  destruct (fatal err3); simpl; [by eexists|].
  apply (foldl_invariant (λ s, ∃ v, s = set_Logging v status)); [by eexists|].
  intros s' pod [v ->]. by eexists.
Qed.

Lemma checkNodeStatus_ASGIssues status w :
  ASGIssues (checkNodeStatus k status w).1.1 = ASGIssues status.
Proof.
  unfold checkNodeStatus, mbind, M_bind, bind.
  destruct (Nodes_List _ _ w) as [[nodes [e|]] w1]; simpl; [done|].
  by rewrite checkNodeStatus_loop.
Qed.

Lemma checks_unreported (c : Check W) status w :
  c ∈ checks k →
  RBACIssues (Auth (c status w).1.1) = RBACIssues (Auth status) ∧
  IAMAuthIssues (Auth (c status w).1.1) = IAMAuthIssues (Auth status) ∧
  ASGIssues (Nodes (c status w).1.1) = ASGIssues (Nodes status).
Proof.
  unfold checks. intros Hc.
  repeat (apply elem_of_cons in Hc as [->|Hc]); [..|by apply elem_of_nil in Hc].
  - by destruct (checkVersionMismatch_sets status w) as [v ->].
  - by destruct (checkDeprecatedAPIs_sets status w) as [v ->].
  - by destruct (checkLoggingStatus_sets status w) as [v ->].
  - unfold onField, mbind, M_bind, bind.
    by destruct (checkNetworkingStatus k (Networking status) w) as [[sub err] w1].
  - unfold onField, mbind, M_bind, bind.
    by destruct (checkLoadBalancerStatus k (LoadBalancer status) w) as [[sub err] w1].
  - unfold onField, mbind, M_bind, bind.
    by destruct (checkSchedulingStatus k (Scheduling status) w) as [[sub err] w1].
  - pose proof (checkAuthStatus_frame k (Auth status) w) as (_ & H1 & H2 & _).
    unfold onField, mbind, M_bind, bind.
    by destruct (checkAuthStatus k (Auth status) w) as [[sub err] w1].
  - pose proof (checkNodeStatus_ASGIssues (Nodes status) w) as H1.
    unfold onField, mbind, M_bind, bind.
    by destruct (checkNodeStatus k (Nodes status) w) as [[sub err] w1].
Qed.

End NeverReported.

Lemma elem_of_if_singleton {A} (b : bool) (x y : A) :
  x ∈ (if b then [y] else []) ↔ b = true ∧ x = y.
Proof.
  destruct b.
  - rewrite list_elem_of_singleton. split; [by intros ->|by intros [_ ->]].
  - rewrite elem_of_nil. split; [done|]. intros [Hb _]. discriminate Hb.
Qed.

Lemma len_pos_true {A} (l : list A) : (0 <? len l) = true ↔ l ≠ [].
Proof. rewrite len_pos. by destruct l. Qed.

(** Which recommendation belongs to which category. *)
Lemma elem_of_recommendedActions (status : ClusterHealthStatus) (line : Line) :
  line ∈ recommendedActions status ↔
  (line = Println "1. Upgrade nodes to match control plane version" ∧
     (1 < size (NodeVersions status))%nat) ∨
  (line = Println "2. Update applications using deprecated APIs" ∧
     DeprecatedAPIs status ≠ []) ∨
  (line = Println "3. Fix IRSA configuration issues" ∧ IRSAIssues (Auth status) ≠ []) ∨
  (line = Println "4. Review and fix RBAC issues" ∧ RBACIssues (Auth status) ≠ []) ∨
  (line = Println "5. Investigate nodes in NotReady state" ∧ NotReady (Nodes status) ≠ []) ∨
  (line = Println "6. Address pod scheduling issues" ∧
     PendingPods (Scheduling status) ≠ []) ∨
  (line = Println "7. Check LoadBalancer provisioning issues" ∧
     PendingServices (LoadBalancer status) ≠ []).
Proof.
  unfold recommendedActions.
  rewrite !elem_of_app, !elem_of_if_singleton, !len_pos_true, Z.ltb_lt.
  assert (1 < Z.of_nat (size (NodeVersions status)) ↔ (1 < size (NodeVersions status))%nat)
    as Hsize by lia.
  rewrite Hsize. clear Hsize.
  split.
  - intros [[? ?]|[[? ?]|[[? ?]|[[? ?]|[[? ?]|[[? ?]|[? ?]]]]]]];
      [left|do 1 right; left|do 2 right; left|do 3 right; left
      |do 4 right; left|do 5 right; left|do 6 right]; by split.
  - intros [[? ?]|[[? ?]|[[? ?]|[[? ?]|[[? ?]|[[? ?]|[? ?]]]]]]];
      [left|do 1 right; left|do 2 right; left|do 3 right; left
      |do 4 right; left|do 5 right; left|do 6 right]; by split.
Qed.

(** A line of [fmt.Println] in the summary is the heading of the
    recommendations or one of them. *)
Lemma elem_of_printed (status : ClusterHealthStatus) (text : string) :
  Println text ∈ printed (printHealthSummary status) ↔
  0 < totalIssues (printHealthSummary status) ∧
  (text = String (Ascii.ascii_of_nat 10) "Recommended actions:" ∨
   Println text ∈ recommendedActions status).
Proof.
  cbv beta zeta iota delta [printHealthSummary printed totalIssues].
  set (total := add64 _ _). set (critical := if 1 <? _ then _ else _).
  destruct (0 <? total) eqn:Htotal.
  - apply Z.ltb_lt in Htotal.
    destruct (0 <? critical);
      rewrite !elem_of_app, !elem_of_cons, !elem_of_nil;
      intuition (first [congruence|lia]).
  - apply Z.ltb_ge in Htotal.
    destruct (0 <? critical);
      rewrite !elem_of_app, !elem_of_cons, !elem_of_nil;
      intuition (first [congruence|lia]).
Qed.

Lemma CheckClusterHealth_unreported
    {W} (k : KubeClient W) (w : W) (status : ClusterHealthStatus) :
  (CheckClusterHealth k w).1.1 = Some status →
  RBACIssues (Auth status) = [] ∧ IAMAuthIssues (Auth status) = [] ∧
  ASGIssues (Nodes status) = [].
Proof.
  apply (CheckClusterHealth_invariant k
           (λ s, RBACIssues (Auth s) = [] ∧ IAMAuthIssues (Auth s) = [] ∧
                 ASGIssues (Nodes s) = [])); [|done].
  intros c s w0 Hc (H1 & H2 & H3).
  by destruct (checks_unreported k c s w0 Hc) as (-> & -> & ->).
Qed.

(** X7.  No check writes [RBACIssues], [IAMAuthIssues] or [ASGIssues]:
    they are empty in every status that [CheckClusterHealth] returns, and
    the summary of such a status never prints the recommendation
    "4. Review and fix RBAC issues". *)
Theorem CheckClusterHealth_never_reports_rbac
    {W} (k : KubeClient W) (w : W) (status : ClusterHealthStatus) :
  (CheckClusterHealth k w).1.1 = Some status →
  RBACIssues (Auth status) = [] ∧
  IAMAuthIssues (Auth status) = [] ∧
  ASGIssues (Nodes status) = [] ∧
  Println "4. Review and fix RBAC issues" ∉ printed (printHealthSummary status).
Proof.
  intros Hret.
  destruct (CheckClusterHealth_unreported k w status Hret) as (Hrbac & Hiam & Hasg).
  split; [done|]. split; [done|]. split; [done|].
  intros [_ [Hhead|Hrec]]%elem_of_printed; [discriminate Hhead|].
  apply elem_of_recommendedActions in Hrec.
  destruct Hrec as [[H _]|[[H _]|[[H _]|[[_ H]|[[H _]|[[H _]|[H _]]]]]]];
    try discriminate H.
  by rewrite Hrbac in H.
Qed.

Lemma CheckClusterHealth_never_reports_rbac_witness :
  let status :=
    default newStatus (CheckClusterHealth (fake.NewKubeClient scenario.down) []).1.1 in
  NotReady (Nodes status) = ["n1"; "n2"] ∧
  0 < totalIssues (printHealthSummary status) ∧
  RBACIssues (Auth status) = [] ∧
  Println "4. Review and fix RBAC issues" ∉ printed (printHealthSummary status).
Proof.
  intros status. split; [by vm_compute|]. split; [by vm_compute|].
  destruct (CheckClusterHealth_never_reports_rbac
              (fake.NewKubeClient scenario.down) [] status) as (H1 & _ & _ & H4).
  - by vm_compute.
  - by split.
Defined.

Lemma sublist_omap {A B} (f : A → option B) (l1 l2 : list A) :
  sublist l1 l2 → sublist (omap f l1) (omap f l2).
Proof.
  induction 1 as [|x l1 l2 _ IH|x l1 l2 _ IH]; simpl.
  - constructor.
  - destruct (f x); [by apply sublist_skip|done].
  - destruct (f x); [by apply sublist_cons|done].
Qed.

(** When a recommendation is among the lines of the summary. *)
Lemma elem_of_printed_recommendation
    (status : ClusterHealthStatus) (text : string) (category : Prop) :
  text ≠ String (Ascii.ascii_of_nat 10) "Recommended actions:" →
  (Println text ∈ recommendedActions status ↔ category) →
  Println text ∈ printed (printHealthSummary status) ↔
  0 < totalIssues (printHealthSummary status) ∧ category.
Proof. intros Htext Hcategory. rewrite elem_of_printed. tauto. Qed.

(** X8.  The lines that the summary writes with [fmt.Println] are, in
    this order and once each at most, the heading "Recommended actions:"
    and the seven recommendations.  The heading is printed exactly when
    [totalIssues] is positive, and each recommendation exactly when
    [totalIssues] is positive and its own category has a finding: more
    than one node version for the first, and a non-empty list of
    deprecated APIs, of IRSA issues, of RBAC issues, of nodes that are
    not ready, of pending pods and of pending services for the others. *)
Theorem printHealthSummary_recommendations (status : ClusterHealthStatus) :
  let lines := printed (printHealthSummary status) in
  let total := totalIssues (printHealthSummary status) in
  sublist (printlns lines)
    [ String (Ascii.ascii_of_nat 10) "Recommended actions:";
      "1. Upgrade nodes to match control plane version";
      "2. Update applications using deprecated APIs";
      "3. Fix IRSA configuration issues";
      "4. Review and fix RBAC issues";
      "5. Investigate nodes in NotReady state";
      "6. Address pod scheduling issues";
      "7. Check LoadBalancer provisioning issues" ] ∧
  (Println (String (Ascii.ascii_of_nat 10) "Recommended actions:") ∈ lines ↔ 0 < total) ∧
  (Println "1. Upgrade nodes to match control plane version" ∈ lines ↔
     0 < total ∧ (1 < size (NodeVersions status))%nat) ∧
  (Println "2. Update applications using deprecated APIs" ∈ lines ↔
     0 < total ∧ DeprecatedAPIs status ≠ []) ∧
  (Println "3. Fix IRSA configuration issues" ∈ lines ↔
     0 < total ∧ IRSAIssues (Auth status) ≠ []) ∧
  (Println "4. Review and fix RBAC issues" ∈ lines ↔
     0 < total ∧ RBACIssues (Auth status) ≠ []) ∧
  (Println "5. Investigate nodes in NotReady state" ∈ lines ↔
     0 < total ∧ NotReady (Nodes status) ≠ []) ∧
  (Println "6. Address pod scheduling issues" ∈ lines ↔
     0 < total ∧ PendingPods (Scheduling status) ≠ []) ∧
  (Println "7. Check LoadBalancer provisioning issues" ∈ lines ↔
     0 < total ∧ PendingServices (LoadBalancer status) ≠ []).
Proof.
  intros lines total. split.
  - pose proof (sublist_omap
                  (λ line, match line with Println text => Some text | _ => None end)
                  _ _ (recommendedActions_in_order status)) as Hrec.
    fold (printlns (recommendedActions status)) in Hrec.
    unfold lines. cbv beta zeta iota delta [printHealthSummary printed].
    set (sum := add64 _ _). set (critical := if 1 <? _ then _ else _).
    destruct (0 <? sum), (0 <? critical); unfold printlns in *;
      rewrite !omap_app; simpl omap; simpl app.
    + by apply sublist_skip.
    + by apply sublist_skip.
    + repeat apply sublist_cons. constructor.
    + repeat apply sublist_cons. constructor.
  - split.
    { unfold lines, total. rewrite elem_of_printed. split; [tauto|]. intros Hpos.
      split; [done|]. by left. }
    unfold lines, total. clear lines total.
    repeat match goal with |- _ ∧ _ => split end;
      (apply elem_of_printed_recommendation; [discriminate|]);
      rewrite elem_of_recommendedActions;
      (split;
       [ intros [[Heq Hc]|[[Heq Hc]|[[Heq Hc]|[[Heq Hc]|[[Heq Hc]|[[Heq Hc]|[Heq Hc]]]]]]];
           first [discriminate Heq|exact Hc]
       | intros Hc;
         repeat first [ solve [split; [reflexivity|exact Hc]]
                      | solve [left; split; [reflexivity|exact Hc]]
                      | right ] ]).
Qed.

Lemma len_nonneg {A} (l : list A) : 0 ≤ len l.
Proof. unfold len. lia. Qed.

Lemma len_eq_zero {A} (l : list A) : len l = 0 ↔ l = [].
Proof. by destruct l. Qed.

(** The healthy line is printed exactly when [totalIssues] is not
    positive. *)
Lemma elem_of_printed_healthy (status : ClusterHealthStatus) :
  Success "No issues found - cluster is healthy!" ∈ printed (printHealthSummary status) ↔
  totalIssues (printHealthSummary status) ≤ 0.
Proof.
  cbv beta zeta iota delta [printHealthSummary printed totalIssues].
  set (total := add64 _ _). set (critical := if 1 <? _ then _ else _).
  assert (∀ line, line ∈ recommendedActions status → ∃ text, line = Println text) as Hrec.
  { intros line Hline. apply elem_of_recommendedActions in Hline.
    destruct Hline as [[-> _]|[[-> _]|[[-> _]|[[-> _]|[[-> _]|[[-> _]|[-> _]]]]]]];
      by eexists. }
  destruct (0 <? total) eqn:Htotal.
  - apply Z.ltb_lt in Htotal. split; [|lia].
    destruct (0 <? critical);
      rewrite !elem_of_app, !elem_of_cons, !elem_of_nil;
      intros [H|[H|H]]; try (intuition congruence);
      destruct (Hrec _ H) as [text Htext]; discriminate Htext.
  - apply Z.ltb_ge in Htotal. split; [done|]. intros _.
    apply elem_of_app. right. apply list_elem_of_here.
Qed.

(** X9.  As long as the six counted lists hold fewer than [2 ^ 63]
    findings together, the summary prints "No issues found - cluster is
    healthy!" exactly when all six are empty, whether or not the nodes
    run different versions. *)
Theorem printHealthSummary_healthy_iff_no_findings (status : ClusterHealthStatus) :
  len (DeprecatedAPIs status) + len (IRSAIssues (Auth status)) +
  len (RBACIssues (Auth status)) + len (NotReady (Nodes status)) +
  len (PendingPods (Scheduling status)) + len (PendingServices (LoadBalancer status))
    < 2 ^ 63 →
  Success "No issues found - cluster is healthy!" ∈ printed (printHealthSummary status) ↔
  noFindings status.
Proof.
  intros Hbound. rewrite elem_of_printed_healthy.
  destruct (printHealthSummary_counts status Hbound) as [-> _].
  unfold noFindings. rewrite <- !len_eq_zero.
  pose proof (len_nonneg (DeprecatedAPIs status)).
  pose proof (len_nonneg (IRSAIssues (Auth status))).
  pose proof (len_nonneg (RBACIssues (Auth status))).
  pose proof (len_nonneg (NotReady (Nodes status))).
  pose proof (len_nonneg (PendingPods (Scheduling status))).
  pose proof (len_nonneg (PendingServices (LoadBalancer status))).
  lia.
Qed.

Lemma printHealthSummary_healthy_iff_no_findings_witness :
  (1 < size (NodeVersions scenario.skewStatus))%nat ∧
  Success "No issues found - cluster is healthy!"
    ∈ printed (printHealthSummary scenario.skewStatus).
Proof.
  split; [vm_compute; lia|].
  apply (printHealthSummary_healthy_iff_no_findings scenario.skewStatus).
  - by vm_compute.
  - by repeat split.
Defined.

(** X10.  As long as the six counted lists hold fewer than [2 ^ 63]
    findings together, [criticalIssues ≤ totalIssues] fails exactly when
    the nodes run more than one version and the six lists are empty. *)
Theorem printHealthSummary_critical_le_total
    (status : ClusterHealthStatus) :
  len (DeprecatedAPIs status) + len (IRSAIssues (Auth status)) +
  len (RBACIssues (Auth status)) + len (NotReady (Nodes status)) +
  len (PendingPods (Scheduling status)) + len (PendingServices (LoadBalancer status))
    < 2 ^ 63 →
  criticalIssues (printHealthSummary status) ≤ totalIssues (printHealthSummary status) ↔
  ¬ ((1 < size (NodeVersions status))%nat ∧ noFindings status).
Proof.
  intros Hbound.
  rewrite (printHealthSummary_critical_le_total_iff status Hbound).
  unfold noFindings. rewrite <- !len_eq_zero.
  pose proof (len_nonneg (DeprecatedAPIs status)).
  pose proof (len_nonneg (IRSAIssues (Auth status))).
  pose proof (len_nonneg (RBACIssues (Auth status))).
  pose proof (len_nonneg (NotReady (Nodes status))).
  pose proof (len_nonneg (PendingPods (Scheduling status))).
  pose proof (len_nonneg (PendingServices (LoadBalancer status))).
  split; intros Hn; intros [Hs Hf]; apply Hn; (split; [done|lia]).
Qed.

Lemma printHealthSummary_critical_le_total_witness :
  let status := set_DeprecatedAPIs ["Deployment shop/web uses deprecated APIs"]
                  scenario.skewStatus in
  criticalIssues (printHealthSummary status) ≤ totalIssues (printHealthSummary status).
Proof.
  intros status.
  apply (printHealthSummary_critical_le_total status).
  - by vm_compute.
  - intros [_ (Hd & _)]. discriminate Hd.
Defined.

(** X11.  In every status that [CheckClusterHealth] returns both
    booleans of the networking status are [false], so the networking
    section always ends with the two warnings "External network access
    issues detected" and "DNS resolution issues detected", whatever the
    cluster. *)
Theorem printNetworkingStatus_always_warns
    {W} (k : KubeClient W) (w : W) (status : ClusterHealthStatus) :
  (CheckClusterHealth k w).1.1 = Some status →
  ∃ lines,
    printNetworkingStatus (Networking status)
    = lines ++ [ LogWarning "❌ External network access issues detected" [];
                 LogWarning "❌ DNS resolution issues detected" [] ].
Proof.
  intros Hret. destruct (CheckClusterHealth_frame k status w Hret) as (_ & Hext & Hdns).
  unfold printNetworkingStatus. rewrite Hext, Hdns.
  eexists. rewrite <- app_assoc. reflexivity.
Qed.

Lemma printNetworkingStatus_always_warns_witness :
  let status :=
    default newStatus (CheckClusterHealth (fake.NewKubeClient fake.empty) []).1.1 in
  (TestPodDNS (fake.NewKubeClient fake.empty) "default" ""
     "kubernetes.default.svc.cluster.local" []).1 = (true, None) ∧
  ∃ lines,
    printNetworkingStatus (Networking status)
    = lines ++ [ LogWarning "❌ External network access issues detected" [];
                 LogWarning "❌ DNS resolution issues detected" [] ].
Proof.
  intros status. split; [by vm_compute|].
  apply (printNetworkingStatus_always_warns (fake.NewKubeClient fake.empty) [] status).
  by vm_compute.
Defined.

(** X21.  In every status that [CheckClusterHealth] returns the RBAC and
    IAM findings are empty, so the authentication section always ends
    with "No RBAC issues detected" and "No IAM authentication issues
    detected", whatever the cluster. *)
Theorem printAuthStatus_always_clears_rbac
    {W} (k : KubeClient W) (w : W) (status : ClusterHealthStatus) :
  (CheckClusterHealth k w).1.1 = Some status →
  ∃ lines,
    printAuthStatus (Auth status)
    = lines ++ [ LogSuccess "✅ No RBAC issues detected" [];
                 LogSuccess "✅ No IAM authentication issues detected" [] ].
Proof.
  intros Hret. destruct (CheckClusterHealth_unreported k w status Hret) as (Hrbac & Hiam & _).
  unfold printAuthStatus. rewrite Hrbac, Hiam. simpl.
  eexists. rewrite <- app_assoc. reflexivity.
Qed.

Lemma printAuthStatus_always_clears_rbac_witness :
  let status :=
    default newStatus (CheckClusterHealth (fake.NewKubeClient scenario.pending) []).1.1 in
  PendingPods (Scheduling status) ≠ [] ∧
  ∃ lines,
    printAuthStatus (Auth status)
    = lines ++ [ LogSuccess "✅ No RBAC issues detected" [];
                 LogSuccess "✅ No IAM authentication issues detected" [] ].
Proof.
  intros status. split; [by vm_compute|].
  apply (printAuthStatus_always_clears_rbac
           (fake.NewKubeClient scenario.pending) [] status).
  by vm_compute.
Defined.

(** ** Cluster resources *)

Section Resources.
Context {W : Type} (k : KubeClient W).

Lemma nodesLoop_totals nodes resources w resources' w' :
  nodesLoop k nodes resources w = ((resources', None), w') →
  TotalCPU resources' = foldl add64 (TotalCPU resources) (cpuCapacity <$> nodes) ∧
  TotalMemory resources' = foldl add64 (TotalMemory resources) (memoryCapacity <$> nodes) ∧
  CPUPercentage resources' = CPUPercentage resources ∧
  MemPercentage resources' = MemPercentage resources.
Proof.
  revert resources w. induction nodes as [|node nodes IH]; intros resources w; simpl.
  - unfold mret, M_ret, ret. by intros [= <- <-].
  - unfold mbind, M_bind, bind.
    destruct (Pods_List _ _ _ w) as [[pods [e|]] w1]; [discriminate|].
    intros Hrest. apply IH in Hrest. clear IH.
    match type of Hrest with
    | context [TotalCPU (foldl ?f ?r0 pods)] =>
        assert (TotalCPU (foldl f r0 pods) = TotalCPU r0 ∧
                TotalMemory (foldl f r0 pods) = TotalMemory r0 ∧
                CPUPercentage (foldl f r0 pods) = CPUPercentage r0 ∧
                MemPercentage (foldl f r0 pods) = MemPercentage r0) as (H1 & H2 & H3 & H4)
    end.
    { apply (foldl_invariant (λ r, TotalCPU r = _ ∧ TotalMemory r = _ ∧
                                   CPUPercentage r = _ ∧ MemPercentage r = _)); [done|].
      intros r pod Hr.
      apply (foldl_invariant (λ r, TotalCPU r = _ ∧ TotalMemory r = _ ∧
                                   CPUPercentage r = _ ∧ MemPercentage r = _)); [done|].
      by intros r' container (? & ? & ? & ?). }
    rewrite H1, H2, H3, H4 in Hrest. exact Hrest.
Qed.

End Resources.

(** X12.  When [GetClusterResources] returns resources, the two totals
    are the sums, in [int64] arithmetic, of the CPU capacities (in
    thousandths) and of the memory capacities of all the listed nodes;
    and a percentage is the ratio of the allocation to the total, times
    100, only when the total is positive: otherwise no division is made
    and the percentage is 0. *)
Theorem GetClusterResources_totals
    {W} (k : KubeClient W) (nodes : list Node) (resources : ClusterResources) (w w1 w' : W) :
  Nodes_List (Clientset k) noOptions w = ((nodes, None), w1) →
  GetClusterResources k w = ((Some resources, None), w') →
  TotalCPU resources = foldl add64 0 (cpuCapacity <$> nodes) ∧
  TotalMemory resources = foldl add64 0 (memoryCapacity <$> nodes) ∧
  CPUPercentage resources =
    (if 0 <? TotalCPU resources
     then (float64 (AllocatedCPU resources) / float64 (TotalCPU resources)
           * float64 100)%float
     else 0%float) ∧
  MemPercentage resources =
    (if 0 <? TotalMemory resources
     then (float64 (AllocatedMemory resources) / float64 (TotalMemory resources)
           * float64 100)%float
     else 0%float).
Proof.
  intros Hnodes. unfold GetClusterResources, mbind, M_bind, bind. rewrite Hnodes. simpl.
  destruct (nodesLoop k nodes zeroResources w1) as [[r [e|]] w2] eqn:Hloop; [discriminate|].
  apply nodesLoop_totals in Hloop as (Hcpu & Hmem & Hpc & Hpm). simpl in *.
  unfold mret, M_ret, ret. intros [= <- <-]. simpl.
  rewrite Hpc, Hpm. done.
Qed.

Lemma GetClusterResources_totals_witness :
  let resources :=
    default zeroResources
      (GetClusterResources (fake.NewKubeClient scenario.down) []).1.1 in
  TotalCPU resources = 0 ∧ CPUPercentage resources = 0%float ∧
  MemPercentage resources = 0%float.
Proof.
  intros resources.
  destruct (GetClusterResources_totals (fake.NewKubeClient scenario.down)
              scenario.downNodes resources [] [fake.ListNodes]
              [fake.ListNodes;
               fake.ListPods "" {| LabelSelector := ""; FieldSelector := "spec.nodeName=n1" |};
               fake.ListPods "" {| LabelSelector := ""; FieldSelector := "spec.nodeName=n2" |}]
              eq_refl) as (Hcpu & Hmem & Hpc & Hpm).
  - by vm_compute.
  - split; [exact Hcpu|]. split; [by rewrite Hpc, Hcpu|].
    by rewrite Hpm, Hmem.
Defined.

(** ** The DNS probe *)

Lemma watchLoop_verdict (events : list Pod) : watchLoop events = verdict events.
Proof.
  unfold verdict. induction events as [|pod events IH]; [done|].
  simpl. rewrite filter_cons. unfold terminal at 1.
  destruct (decide (pod_Phase pod = PodSucceeded)) as [Hs|Hs].
  - rewrite (bool_decide_eq_true_2 _ Hs). rewrite decide_True by (by left).
    simpl. by rewrite decide_True.
  - rewrite (bool_decide_eq_false_2 _ Hs).
    destruct (decide (pod_Phase pod = PodFailed)) as [Hf|Hf].
    + rewrite (bool_decide_eq_true_2 _ Hf). rewrite decide_True by (by right).
      simpl. by rewrite decide_False.
    + rewrite (bool_decide_eq_false_2 _ Hf).
      rewrite decide_False by (by intros [?|?]). exact IH.
Qed.

(** X14.  [TestPodDNS] reports success exactly when it returns no
    error: it never returns [false] with a nil error, nor [true] with an
    error. *)
Theorem TestPodDNS_success_iff_no_error
    {W} (k : KubeClient W) (namespace podName hostname : string) (w : W) :
  (TestPodDNS k namespace podName hostname w).1.1 = true ↔
  (TestPodDNS k namespace podName hostname w).1.2 = None.
Proof.
  unfold TestPodDNS, mbind, M_bind, bind.
  destruct (Pods_Create _ _ _ w) as [[pod [e|]] w1]; simpl; [done|].
  destruct (Pods_Watch _ _ _ w1) as [[events [e|]] w2]; simpl;
    destruct (Pods_Delete _ _ _ w2) as [derr w3]; simpl; [done|].
  rewrite watchLoop_verdict. unfold verdict.
  destruct (head (filter terminal events)) as [pod'|]; [|done].
  by destruct (decide (pod_Phase pod' = PodSucceeded)).
Qed.

(** ** The EFS CSI driver and the unschedulable pods *)

Lemma foldl_app_bind {A B} (g : list B → A → list B) (f : A → list B)
    (l : list A) (acc : list B) :
  (∀ acc x, g acc x = acc ++ f x) → foldl g acc l = acc ++ (l ≫= f).
Proof.
  intros Hg. revert acc. induction l as [|x l IH]; intros acc.
  - simpl. by rewrite app_nil_r.
  - rewrite bind_cons. simpl. by rewrite IH, Hg, <- app_assoc.
Qed.

Lemma bind_singleton_fmap {A B} (f : A → B) (l : list A) :
  l ≫= (λ x, [f x]) = f <$> l.
Proof. induction l as [|x l IH]; [done|]. by rewrite bind_cons, fmap_cons, IH. Qed.

Lemma bind_filter_fmap {A B} (P : A → Prop) `{!∀ x, Decision (P x)} (f : A → B)
    (l : list A) :
  l ≫= (λ x, if decide (P x) then [f x] else []) = f <$> filter P l.
Proof.
  induction l as [|x l IH]; [done|]. rewrite bind_cons, IH, filter_cons.
  by destruct (decide (P x)).
Qed.


(** X15.  When the listing succeeds, [GetEFSCSIStatus] returns one status
    per controller pod, in listing order, with the phase of the pod as
    its status; the message is "Pod is not in Running state" exactly for
    the pods whose phase is not [Running], and empty for the others. *)
Theorem GetEFSCSIStatus_statuses
    {W} (k : KubeClient W) (pods : list Pod) (w w' : W) :
  Pods_List (Clientset k) "kube-system"
    {| LabelSelector := "app=efs-csi-controller"; FieldSelector := "" |} w
    = ((pods, None), w') →
  GetEFSCSIStatus k w = ((efsStatus <$> pods, None), w').
Proof.
  intros Hlist. unfold GetEFSCSIStatus, mbind, M_bind, bind. rewrite Hlist. simpl.
  do 2 f_equal.
  rewrite (foldl_app_bind _ (λ pod, [efsStatus pod])).
  - by rewrite bind_singleton_fmap.
  - intros acc pod. do 2 f_equal. unfold efsStatus.
    destruct (decide (pod_Phase pod = PodRunning)) as [Hr|Hr].
    + by rewrite (bool_decide_eq_true_2 _ Hr).
    + by rewrite (bool_decide_eq_false_2 _ Hr).
Qed.

Lemma GetEFSCSIStatus_statuses_witness :
  (Message <$> (GetEFSCSIStatus (fake.NewKubeClient scenario.efs) []).1.1)
  = [""; "Pod is not in Running state"] ∧
  (Status <$> (GetEFSCSIStatus (fake.NewKubeClient scenario.efs) []).1.1)
  = ["Running"; "Pending"].
Proof.
  by rewrite (GetEFSCSIStatus_statuses (fake.NewKubeClient scenario.efs) scenario.efsPods
                [] _ eq_refl).
Defined.

(** X16.  When the listing succeeds, [AnalyzeUnschedulablePods] logs one
    warning for every "not scheduled" condition of every listed pod, in
    order, and none for a pod without such a condition; the message of
    the first warning of a pod is the reason that the Scheduling check
    records for that pod. *)
Theorem AnalyzeUnschedulablePods_warnings
    {W} (k : KubeClient W) (pods : list Pod) (w w' : W) :
  Pods_List (Clientset k) ""
    {| LabelSelector := ""; FieldSelector := "status.phase=Pending" |} w
    = ((pods, None), w') →
  AnalyzeUnschedulablePods k w = ((pods ≫= unschedulableWarnings, None), w') ∧
  ∀ pod warning,
    head (unschedulableWarnings pod) = Some warning →
    log_args warning
    = [pod_Namespace pod; pod_Name pod; psi_Reason (schedulingIssue pod)].
Proof.
  intros Hlist. split.
  - unfold AnalyzeUnschedulablePods, mbind, M_bind, bind. rewrite Hlist. simpl.
    do 2 f_equal.
    rewrite (foldl_app_bind _ unschedulableWarnings); [done|].
    intros acc pod. unfold unschedulableWarnings.
    rewrite <- bind_filter_fmap.
    apply foldl_app_bind. intros acc' cond. unfold notScheduled.
    destruct (decide (pc_Type cond = PodScheduled)) as [Ht|Ht];
      destruct (decide (pc_Status cond = ConditionFalse)) as [Hs|Hs];
      rewrite ?(bool_decide_eq_true_2 _ Ht), ?(bool_decide_eq_false_2 _ Ht),
              ?(bool_decide_eq_true_2 _ Hs), ?(bool_decide_eq_false_2 _ Hs); simpl.
    + by rewrite decide_True.
    + rewrite decide_False by (by intros [_ ?]). by rewrite app_nil_r.
    + rewrite decide_False by (by intros [? _]). by rewrite app_nil_r.
    + rewrite decide_False by (by intros [? _]). by rewrite app_nil_r.
  - intros pod warning. unfold unschedulableWarnings, schedulingIssue. simpl.
    destruct (filter notScheduled (pod_Conditions pod)) as [|cond rest]; [done|].
    simpl. by intros [= <-].
Qed.

Lemma AnalyzeUnschedulablePods_warnings_witness :
  AnalyzeUnschedulablePods (fake.NewKubeClient scenario.pending) []
  = (([ {| log_format := "Pod %s/%s is unschedulable: %s";
           log_args := ["default"; "db-0"; "0/3 nodes are available: 3 Insufficient cpu."] |} ],
      None),
     [fake.ListPods "" {| LabelSelector := ""; FieldSelector := "status.phase=Pending" |}]).
Proof.
  by destruct (AnalyzeUnschedulablePods_warnings (fake.NewKubeClient scenario.pending)
                 [scenario.web0; scenario.db0] [] _ eq_refl) as [-> _].
Defined.

(** ** Version skew and the nodes *)

Lemma map_size_two {A} (m : gmap string A) :
  (1 < size m)%nat ↔ ∃ k1 k2, k1 ≠ k2 ∧ is_Some (m !! k1) ∧ is_Some (m !! k2).
Proof.
  split.
  - intros Hsize.
    destruct (map_size_ne_0_lookup_1 m) as [k1 Hk1]; [lia|].
    pose proof (map_size_delete_Some k1 m Hk1) as Hdel.
    destruct (map_size_ne_0_lookup_1 (delete k1 m)) as [k2 Hk2]; [lia|].
    apply lookup_delete_is_Some in Hk2 as [Hne Hk2]. by exists k1, k2.
  - intros (k1 & k2 & Hne & Hk1 & Hk2).
    pose proof (map_size_delete_Some k1 m Hk1) as Hdel.
    assert (size (delete k1 m) ≠ 0%nat); [|lia].
    apply (map_size_ne_0_lookup_2 _ k2). by apply lookup_delete_is_Some.
Qed.

Lemma nodesRunning_nonempty (version : string) (nodes : list Node) :
  nodesRunning version nodes ≠ [] ↔
  ∃ node, node ∈ nodes ∧ node_KubeletVersion node = version.
Proof.
  unfold nodesRunning. split.
  - destruct (filter _ nodes) as [|node rest] eqn:Hf; [done|]. intros _.
    assert (node ∈ filter (λ node, node_KubeletVersion node = version) nodes) as Hin
      by (rewrite Hf; apply list_elem_of_here).
    apply list_elem_of_filter in Hin as [? ?]. by exists node.
  - intros (node & Hin & Hv) Hnil. apply fmap_nil_inv in Hnil.
    assert (node ∈ filter (λ node, node_KubeletVersion node = version) nodes) as Hf
      by (by apply list_elem_of_filter).
    rewrite Hnil in Hf. by apply elem_of_nil in Hf.
Qed.

(** X17.  When the node listing succeeds, the version map that
    [checkVersionMismatch] builds from an empty map has more than one
    key, which is the signal of version skew, exactly when two listed
    nodes report different kubelet versions; and no key of the map has an
    empty list of nodes. *)
Theorem checkVersionMismatch_skew_iff_nodes_disagree
    {W} (k : KubeClient W) (nodes : list Node) (status : ClusterHealthStatus) (w w' : W) :
  Nodes_List (Clientset k) noOptions w = ((nodes, None), w') →
  NodeVersions status = ∅ →
  ((1 < size (NodeVersions (checkVersionMismatch k status w).1.1))%nat ↔
   ∃ node1 node2, node1 ∈ nodes ∧ node2 ∈ nodes ∧
                  node_KubeletVersion node1 ≠ node_KubeletVersion node2) ∧
  (∀ version names,
     NodeVersions (checkVersionMismatch k status w).1.1 !! version = Some names →
     names ≠ []).
Proof.
  intros Hlist Hempty. rewrite (checkVersionMismatch_ok k nodes status w w' Hlist).
  simpl. rewrite Hempty.
  assert (∀ version,
            is_Some (foldl addNode ∅ nodes !! version) ↔
            ∃ node, node ∈ nodes ∧ node_KubeletVersion node = version) as Hdom.
  { intros version. rewrite foldl_addNode_lookup, lookup_empty, <- nodesRunning_nonempty.
    case_decide as Hr; split.
    - by intros [? ?].
    - done.
    - done.
    - by eexists. }
  split.
  - rewrite map_size_two. split.
    + intros (v1 & v2 & Hne & H1 & H2).
      apply Hdom in H1 as (n1 & Hn1 & <-). apply Hdom in H2 as (n2 & Hn2 & <-).
      by exists n1, n2.
    + intros (n1 & n2 & Hn1 & Hn2 & Hne).
      exists (node_KubeletVersion n1), (node_KubeletVersion n2).
      split; [done|]. split; apply Hdom; eauto.
  - intros version names. rewrite foldl_addNode_lookup, lookup_empty.
    case_decide as Hr; [done|]. simpl. by intros [= <-].
Qed.

Lemma checkVersionMismatch_skew_iff_nodes_disagree_witness :
  (1 < size (NodeVersions
               (checkVersionMismatch (fake.NewKubeClient scenario.skew) newStatus []).1.1))%nat.
Proof.
  apply (checkVersionMismatch_skew_iff_nodes_disagree
           (fake.NewKubeClient scenario.skew) scenario.skewNodes newStatus [] _
           eq_refl eq_refl).
  exists (scenario.node "n1" "1.28" [scenario.ready] ∅),
         (scenario.node "n2" "1.29" [scenario.ready] ∅).
  split; [apply list_elem_of_here|]. split; [apply list_elem_of_further, list_elem_of_here|].
  discriminate.
Defined.

(** ** Role names and node groups *)

Lemma Split_nonempty (s : string) (sep : Ascii.ascii) : aws.Split s sep ≠ [].
Proof.
  destruct s as [|c s]; simpl; [done|].
  destruct (bool_decide (c = sep)); [done|]. by destruct (aws.Split s sep).
Qed.

Lemma Split_noSlash (s : string) : noSlash s → aws.Split s aws.slash = [s].
Proof.
  induction s as [|c s IH]; simpl; [done|]. intros [Hc Hs].
  rewrite (bool_decide_eq_false_2 _ Hc). by rewrite (IH Hs).
Qed.

Lemma Split_parts_noSlash (s : string) : Forall noSlash (aws.Split s aws.slash).
Proof.
  induction s as [|c s IH]; simpl; [by repeat constructor|].
  destruct (decide (c = aws.slash)) as [Hc|Hc].
  - rewrite (bool_decide_eq_true_2 _ Hc). by constructor.
  - rewrite (bool_decide_eq_false_2 _ Hc).
    destruct (aws.Split s aws.slash) as [|part parts]; [by repeat constructor|].
    apply Forall_cons in IH as [Hpart Hparts]. by constructor.
Qed.

Lemma Split_after_slash (prefix name : string) :
  (2 ≤ length (aws.Split (prefix +:+ String aws.slash name) aws.slash))%nat ∧
  last (aws.Split (prefix +:+ String aws.slash name) aws.slash)
  = last (aws.Split name aws.slash).
Proof.
  induction prefix as [|c prefix [IHlen IHlast]]; simpl.
  - pose proof (Split_nonempty name aws.slash).
    destruct (aws.Split name aws.slash) as [|part parts]; [done|].
    split; [simpl; lia|done].
  - destruct (bool_decide _).
    + destruct (aws.Split _ _) as [|part parts]; [simpl in IHlen; lia|].
      split; [simpl in *; lia|done].
    + destruct (aws.Split _ _) as [|part [|part' parts]]; [simpl in IHlen; lia..|].
      split; [simpl in *; lia|done].
Qed.

Lemma extractRoleNameFromARN_last (arn : string) :
  aws.extractRoleNameFromARN arn =
    if decide (2 ≤ length (aws.Split arn aws.slash))%nat
    then default "" (last (aws.Split arn aws.slash)) else "".
Proof.
  unfold aws.extractRoleNameFromARN, len. rewrite last_lookup.
  case_decide as Hlen.
  - rewrite (proj2 (Z.ltb_ge _ _)) by lia. do 2 f_equal. lia.
  - rewrite (proj2 (Z.ltb_lt _ _)) by lia. done.
Qed.

(** X18.  [extractRoleNameFromARN] returns what follows the last ["/"]
    of the ARN: for a name without ["/"], the ARN [<prefix>/<name>] gives
    back [<name>], whatever the prefix; an ARN without any ["/"] gives
    the empty string; and the result never contains a ["/"]. *)
Theorem extractRoleNameFromARN_after_last_slash (arn : string) :
  (∀ prefix name,
     noSlash name →
     arn = prefix +:+ String aws.slash name →
     aws.extractRoleNameFromARN arn = name) ∧
  (noSlash arn → aws.extractRoleNameFromARN arn = "") ∧
  noSlash (aws.extractRoleNameFromARN arn).
Proof.
  rewrite extractRoleNameFromARN_last. split; [|split].
  - intros prefix name Hname ->.
    destruct (Split_after_slash prefix name) as [Hlen Hlast].
    rewrite decide_True by done. rewrite Hlast, (Split_noSlash name Hname). done.
  - intros Hno. rewrite (Split_noSlash arn Hno). by rewrite decide_False by (simpl; lia).
  - case_decide; [|done].
    pose proof (Split_parts_noSlash arn) as Hparts.
    destruct (last (aws.Split arn aws.slash)) as [part|] eqn:Hlast; [|done].
    apply last_Some_elem_of in Hlast.
    by apply (proj1 (Forall_forall _ _) Hparts).
Qed.

Lemma extractRoleNameFromARN_after_last_slash_witness :
  aws.extractRoleNameFromARN "arn:aws:iam::123456789012:role/path/test-role" = "test-role".
Proof.
  apply (proj1 (extractRoleNameFromARN_after_last_slash
                  "arn:aws:iam::123456789012:role/path/test-role")
           "arn:aws:iam::123456789012:role/path" "test-role").
  - by repeat split.
  - reflexivity.
Defined.

Section Nodegroups.
Context {W : Type} (c : aws.EKSAPI W) (clusterName : string).
Context (describe : string → aws.DescribeNodegroupOutput * option error).
Hypothesis Hdescribe :
  ∀ ng w, (aws.DescribeNodegroup c clusterName ng w).1 = describe ng.

Lemma nodegroupsLoop_valid (nodegroups : list string) (w : W) :
  (aws.nodegroupsLoop c clusterName nodegroups w).1 = aws.Return None ↔
  ∀ ng, ng ∈ nodegroups → validNodegroup (describe ng).
Proof.
  revert w. induction nodegroups as [|ng nodegroups IH]; intros w; simpl.
  - split; [|done]. intros _ ng Hin. by apply elem_of_nil in Hin.
  - unfold mbind, M_bind, bind. pose proof (Hdescribe ng w) as Hd.
    destruct (aws.DescribeNodegroup c clusterName ng w) as [[desc err] w1].
    simpl in Hd. unfold validNodegroup.
    assert ((∀ g, g ∈ ng :: nodegroups → validNodegroup (describe g)) ↔
            validNodegroup (describe ng) ∧
            ∀ g, g ∈ nodegroups → validNodegroup (describe g)) as ->.
    { split.
      - intros H. split; [apply H, list_elem_of_here|].
        intros g Hg. by apply H, list_elem_of_further.
      - intros [H1 H2] g [->|Hg]%elem_of_cons; auto. }
    unfold validNodegroup. rewrite <- Hd. simpl.
    destruct err as [e|]; simpl.
    { split; [done|]. by intros [[? _] _]. }
    destruct (aws.out_Nodegroup desc) as [nodegroup|]; simpl.
    2:{ split; [done|]. by intros [[_ (? & ? & ? & ? & ? & _)] _]. }
    destruct (aws.ScalingConfig nodegroup) as [scaling|] eqn:Hsc; simpl.
    2:{ split; [done|]. intros [[_ (g & s & mn & mx & Hg & Hs & _)] _].
        injection Hg as <-. by rewrite Hsc in Hs. }
    destruct (aws.MinSize scaling) as [minSize|] eqn:Hmin; simpl.
    2:{ split; [done|]. intros [[_ (g & s & mn & mx & Hg & Hs & Hmn & _)] _].
        injection Hg as <-. rewrite Hsc in Hs. injection Hs as <-.
        by rewrite Hmin in Hmn. }
    destruct (aws.MaxSize scaling) as [maxSize|] eqn:Hmax; simpl.
    2:{ split; [done|]. intros [[_ (g & s & mn & mx & Hg & Hs & _ & Hmx & _)] _].
        injection Hg as <-. rewrite Hsc in Hs. injection Hs as <-.
        by rewrite Hmax in Hmx. }
    destruct (maxSize <? minSize) eqn:Hlt; simpl.
    + apply Z.ltb_lt in Hlt. split; [done|].
      intros [[_ (g & s & mn & mx & Hg & Hs & Hmn & Hmx & Hle)] _].
      injection Hg as <-. rewrite Hsc in Hs. injection Hs as <-.
      rewrite Hmin in Hmn. rewrite Hmax in Hmx. injection Hmn as <-. injection Hmx as <-.
      lia.
    + apply Z.ltb_ge in Hlt. rewrite IH. split.
      * intros Hrest. split; [|done]. split; [done|].
        by exists nodegroup, scaling, minSize, maxSize.
      * by intros [_ Hrest].
Qed.


End Nodegroups.

(** X19.  For a client whose descriptions do not depend on the requests
    made before, and once the listing of the node groups succeeds,
    [ValidateNodeGroupsConfig] returns a nil error exactly when every
    listed node group is described without error, with both sizes
    present and the minimum not above the maximum. *)
Theorem ValidateNodeGroupsConfig_nil_iff_all_valid
    {W} (c : aws.EKSAPI W) (clusterName : string)
    (describe : string → aws.DescribeNodegroupOutput * option error)
    (nodegroups : list string) (w w1 : W) :
  (∀ ng w0, (aws.DescribeNodegroup c clusterName ng w0).1 = describe ng) →
  aws.ListNodegroups c clusterName w = ((nodegroups, None), w1) →
  (aws.ValidateNodeGroupsConfig c clusterName w).1 = aws.Return None ↔
  ∀ ng, ng ∈ nodegroups → validNodegroup (describe ng).
Proof.
  intros Hdescribe Hlist.
  unfold aws.ValidateNodeGroupsConfig, mbind, M_bind, bind. rewrite Hlist. simpl.
  by apply nodegroupsLoop_valid.
Qed.

Lemma ValidateNodeGroupsConfig_nil_iff_all_valid_witness :
  (aws.ValidateNodeGroupsConfig
     (fake.EKS (["workers"; "system"], None) scenario.describe) "test-cluster" []).1
  = aws.Return None ∧
  (aws.ValidateNodeGroupsConfig
     (fake.EKS (["workers"; "batch"], None) scenario.describe) "test-cluster" []).1
  ≠ aws.Return None.
Proof.
  split.
  - apply (ValidateNodeGroupsConfig_nil_iff_all_valid
             (fake.EKS (["workers"; "system"], None) scenario.describe) "test-cluster"
             scenario.describe ["workers"; "system"] [] []); [done|done|].
    intros ng Hng.
    assert (ng = "workers" ∨ ng = "system") as [->| ->].
    { apply elem_of_cons in Hng as [->|Hng]; [by left|].
      apply list_elem_of_singleton in Hng. by right. }
    + split; [reflexivity|]. eexists _, _, 1, 3.
      split; [reflexivity|]. split; [reflexivity|]. split; [reflexivity|].
      split; [reflexivity|lia].
    + split; [reflexivity|]. eexists _, _, 1, 3.
      split; [reflexivity|]. split; [reflexivity|]. split; [reflexivity|].
      split; [reflexivity|lia].
  - intros Hnil.
    pose proof (proj1 (ValidateNodeGroupsConfig_nil_iff_all_valid
                         (fake.EKS (["workers"; "batch"], None) scenario.describe)
                         "test-cluster" scenario.describe ["workers"; "batch"] [] []
                         (λ _ _, eq_refl) eq_refl) Hnil) as Hvalid.
    destruct (Hvalid "batch") as (_ & g & s & mn & mx & Hg & Hs & Hmn & Hmx & Hle).
    { apply list_elem_of_further, list_elem_of_here. }
    vm_compute in Hg. injection Hg as <-. vm_compute in Hs. injection Hs as <-.
    vm_compute in Hmn, Hmx. injection Hmn as <-. injection Hmx as <-. lia.
Defined.



Lemma checkDeprecatedAPIs_findings_witness :
  let deployments :=
    [ {| meta_Name := "web"; meta_Namespace := "shop";
         meta_Annotations := Some {[ "deprecated.kubernetes.io" := "" ]} |};
      {| meta_Name := "api"; meta_Namespace := "shop"; meta_Annotations := None |};
      {| meta_Name := "db"; meta_Namespace := "shop";
         meta_Annotations := Some {[ "owner" := "team-a" ]} |} ] in
  let answers :=
    {| fake.nodes := ([], None); fake.deployments := (deployments, None);
       fake.pods := λ _ _, ([], None); fake.pod := fake.pod fake.empty;
       fake.logs := fake.logs fake.empty; fake.created := fake.created fake.empty;
       fake.events := fake.events fake.empty;
       fake.services := ([], None); fake.ingresses := ([], None);
       fake.serviceAccounts := ([], None) |} in
  checkDeprecatedAPIs (fake.NewKubeClient answers) newStatus []
  = ((set_DeprecatedAPIs ["Deployment shop/web uses deprecated APIs"] newStatus, None),
     [fake.ListDeployments ""]).
Proof.
  intros deployments answers.
  by rewrite (checkDeprecatedAPIs_findings (fake.NewKubeClient answers) deployments
                newStatus [] _ eq_refl).
Defined.
